(** * LifeShield: pricing, quote acceptance, notification worker and API glue

    A shallow embedding of the LifeShield services.

    - [Pricing]     : [calculatePremium] (docs/DetailedDesign.md, 4.3.1).
    - [Issuance]    : [POST /quotes] and [POST /quotes/:id/accept]
                      (docs/DetailedDesign.md, 4.3.1 and 4.3.2).
    - [Worker]      : the SQS consumer loop [poll], [handleMessage] and
                      [handlePolicyIssued] (docs/DetailedDesign.md, 5.1, 5.2).
    - [Api]         : [requestIdMiddleware] (middleware/requestId.js) and the
                      error handler of [createApp] (app.js).
    - [Binary64]    : [calculatePremium] in IEEE 754 doubles, the numbers
                      of the running code.
    - [Metrics]     : [observeRequest] (metrics/metrics.js) and the finish
                      listener of the timing middleware (app.js).
    - [App]         : the middleware of [createApp] in the order app.js
                      mounts them.
    - [Interrupted] : the two write routes when a handler stops half-way.

    Identifiers, ages and years are integers ([Z]).  Money is an exact
    rational ([Q]) in [Pricing] and [Issuance], which serve the order
    and storage properties; [Binary64] evaluates the pricing expression
    in doubles, and that is where the premium formula is settled. *)

From Stdlib Require Import ZArith QArith Qround Lqa Bool List Lia.
From Stdlib Require SpecFloat.
From stdpp Require Import base gmap strings list pretty.
Import ListNotations.

(* ===================================================================== *)
(** * JavaScript values *)
(* ===================================================================== *)

(** The values that flow through log metadata, JSON bodies and parsed
    queue messages.  Numbers are restricted to integers: the only numbers
    these paths carry are identifiers and status codes. *)
#[local] Unset Elimination Schemes.
Inductive Js : Type :=
| JUndefined
| JNull
| JBool (b : bool)
| JNum (n : Z)
| JStr (s : string)
| JArr (items : list Js)
| JObj (fields : list (string * Js)).
#[local] Set Elimination Schemes.

(** Own-property lookup in a field list: the first binding wins. *)
Fixpoint fieldOf (k : string) (fields : list (string * Js)) : Js :=
  match fields with
  | [] => JUndefined
  | (k', v) :: rest => if String.eqb k k' then v else fieldOf k rest
  end.

(** [truthy v] is JavaScript's ToBoolean on the values above. *)
Definition truthy (v : Js) : bool :=
  match v with
  | JUndefined | JNull => false
  | JBool b => b
  | JNum n => negb (n =? 0)%Z
  | JStr s => negb (String.eqb s EmptyString)
  | JArr _ | JObj _ => true
  end.

(** Log records written through the winston logger. *)
Inductive Level : Type := info | warn | error.

Record LogEntry : Type := mkLog {
  level : Level;
  text : string;
  meta : list (string * Js)
}.

(* ===================================================================== *)
(** * Pricing: calculatePremium *)
(* ===================================================================== *)

Module Pricing.

Local Open Scope Q_scope.

Inductive OccupationRisk : Type := LOW | MEDIUM | HIGH.

(** The first argument of [calculatePremium], [{ age, smoker, occupationRisk }]. *)
Record RiskProfile : Type := mkRisk {
  age : Z;
  smoker : bool;
  occupationRisk : OccupationRisk
}.

Definition isMEDIUM (o : OccupationRisk) : bool :=
  match o with MEDIUM => true | _ => false end.

Definition isHIGH (o : OccupationRisk) : bool :=
  match o with HIGH => true | _ => false end.

(** base monthly rate per unit coverage *)
Definition baseRate : Q := 5 # 10000.

(** Modelled from the spec: [roundToTwoDecimals] is called by
    [calculatePremium] but defined nowhere in the repository.  The
    specification fixes it as rounding to two decimal places, half up:
    the number of cents is [floor (100 x + 1/2)]. *)
Definition roundToTwoDecimals (x : Q) : Q :=
  Qfloor (x * 100 + (1 # 2)) # 100.

(** [calculatePremium({ age, smoker, occupationRisk }, coverageAmount, termYears)].
    Each [let riskFactor] below is one statement of the source; [termYears]
    is a parameter the body never reads.  Numbers are exact rationals
    here: this is the value of the expression before any floating-point
    rounding.  [Binary64.calculatePremium] further down evaluates the
    same statements in IEEE 754 doubles, as the running code does; the
    two differ by a cent where the exact value is a half-cent tie. *)
Definition calculatePremium (c : RiskProfile) (coverageAmount : Q) (termYears : Z) : Q :=
  let riskFactor := 1 in
  let riskFactor :=
    if (age c >? 50)%Z then riskFactor + (3 # 10)
    else if (age c >? 40)%Z then riskFactor + (2 # 10)
    else if (age c >? 30)%Z then riskFactor + (1 # 10)
    else riskFactor in
  let riskFactor := if smoker c then riskFactor + (5 # 10) else riskFactor in
  let riskFactor := if isMEDIUM (occupationRisk c) then riskFactor + (1 # 10) else riskFactor in
  let riskFactor := if isHIGH (occupationRisk c) then riskFactor + (25 # 100) else riskFactor in
  let monthlyPremium := coverageAmount * baseRate * riskFactor / 12 in
  roundToTwoDecimals monthlyPremium.



(** ** The multiplier as the specification words it *)

(** Exactly one age-bracket increment: the brackets are the disjoint
    ranges (30,40], (40,50] and (50,oo). *)
Definition spec_ageIncrement (a : Z) : Q :=
  if ((50 <? a)%Z) then 3 # 10
  else if ((40 <? a) && (a <=? 50))%Z then 2 # 10
  else if ((30 <? a) && (a <=? 40))%Z then 1 # 10
  else 0.

Definition spec_smokerIncrement (s : bool) : Q := if s then 5 # 10 else 0.

Definition spec_occupationIncrement (o : OccupationRisk) : Q :=
  match o with LOW => 0 | MEDIUM => 1 # 10 | HIGH => 25 # 100 end.

Definition spec_multiplier (c : RiskProfile) : Q :=
  1 + spec_ageIncrement (age c) + spec_smokerIncrement (smoker c)
    + spec_occupationIncrement (occupationRisk c).

(** The unrounded premium of the specification. *)
Definition spec_exactPremium (c : RiskProfile) (coverageAmount : Q) : Q :=
  coverageAmount * baseRate * spec_multiplier c / 12.

(** [r] is [x] rounded half up to two decimals: [r] is a whole number of
    cents, it is within half a cent of [x], and a tie goes to the upper
    neighbour. *)
Definition roundedHalfUp2 (x r : Q) : Prop :=
  exists cents : Z, r == cents # 100 /\ r - (1 # 200) <= x /\ x < r + (1 # 200).



End Pricing.

(* ===================================================================== *)
(** * Policy Service: POST /quotes and POST /quotes/:id/accept *)
(* ===================================================================== *)

Module Issuance.

Inductive QuoteStatus : Type := PENDING | ACCEPTED | EXPIRED.
Inductive PolicyStatus : Type := ACTIVE | LAPSED | CANCELLED.

Definition isPENDING (s : QuoteStatus) : bool :=
  match s with PENDING => true | _ => false end.

(** A DATEONLY column: a calendar date. *)
Record Date : Type := mkDate { year : Z; month : Z; day : Z }.

(** [startDate + termYears]: the same day and month, [n] years later. *)
Definition addYears (d : Date) (n : Z) : Date :=
  mkDate (year d + n) (month d) (day d).

(** models/Quote.js *)
Record Quote : Type := mkQuote {
  quote_id : Z;
  quote_customerId : Z;
  coverageAmount : Q;
  termYears : Z;
  monthlyPremium : Q;
  quote_status : QuoteStatus
}.

(** models/Policy.js *)
Record Policy : Type := mkPolicy {
  policy_id : Z;
  policyNumber : string;
  policy_customerId : Z;
  quoteId : Z;
  startDate : Date;
  endDate : Date;
  policy_status : PolicyStatus
}.

(** The two tables of the Policy Service with their auto-increment
    counters. *)
Record Db : Type := mkDb {
  quotes : gmap Z Quote;
  policies : gmap Z Policy;
  nextQuoteId : Z;
  nextPolicyId : Z
}.

(** The message put on the queue (Architecture.md, 5.2):
    [{ type, policyId, customerId, issuedAt }]. *)
Record Event : Type := mkEvent {
  event_type : string;
  event_policyId : Z;
  event_customerId : Z;
  issuedAt : Z
}.

(** The Policy Service and what it talks to: the committed database, the
    transaction in progress (if any), the SQS queue and the domain
    counters.  Only [committed] and [sqs] survive a process crash. *)
Record World : Type := mkWorld {
  committed : Db;
  inTx : option Db;
  sqs : list Event;
  quotes_created_total : nat;
  policies_issued_total : nat
}.

(** The effects a request handler performs, in program order. *)
Inductive Op : Type :=
| TxBegin
| CreatePolicy (p : Policy)
| UpdateQuoteStatus (id : Z) (s : QuoteStatus)
| TxCommit
| TxRollback
| CreateQuote (q : Quote)
| SqsPublish (e : Event)
| MetricInc (name : string).

Definition withStatus (s : QuoteStatus) (q : Quote) : Quote :=
  mkQuote (quote_id q) (quote_customerId q) (coverageAmount q) (termYears q)
          (monthlyPremium q) s.

Definition insertPolicy (p : Policy) (d : Db) : Db :=
  mkDb (quotes d) (<[policy_id p := p]> (policies d)) (nextQuoteId d)
       (Z.max (nextPolicyId d) (policy_id p + 1)).

Definition insertQuote (q : Quote) (d : Db) : Db :=
  mkDb (<[quote_id q := q]> (quotes d)) (policies d)
       (Z.max (nextQuoteId d) (quote_id q + 1)) (nextPolicyId d).

Definition updateQuoteStatus (id : Z) (s : QuoteStatus) (d : Db) : Db :=
  mkDb (alter (withStatus s) id (quotes d)) (policies d) (nextQuoteId d)
       (nextPolicyId d).

(** A write goes to the open transaction when there is one, and straight
    to the committed database otherwise. *)
Definition write (f : Db -> Db) (w : World) : World :=
  match inTx w with
  | Some t => mkWorld (committed w) (Some (f t)) (sqs w)
                      (quotes_created_total w) (policies_issued_total w)
  | None => mkWorld (f (committed w)) None (sqs w)
                    (quotes_created_total w) (policies_issued_total w)
  end.

Definition metricInc (name : string) (w : World) : World :=
  if String.eqb name "quotes_created_total" then
    mkWorld (committed w) (inTx w) (sqs w) (S (quotes_created_total w))
            (policies_issued_total w)
  else if String.eqb name "policies_issued_total" then
    mkWorld (committed w) (inTx w) (sqs w) (quotes_created_total w)
            (S (policies_issued_total w))
  else w.

Definition perform (w : World) (o : Op) : World :=
  match o with
  | TxBegin =>
      mkWorld (committed w) (Some (committed w)) (sqs w)
              (quotes_created_total w) (policies_issued_total w)
  | CreatePolicy p => write (insertPolicy p) w
  | UpdateQuoteStatus id s => write (updateQuoteStatus id s) w
  | TxCommit =>
      match inTx w with
      | Some t => mkWorld t None (sqs w)
                          (quotes_created_total w) (policies_issued_total w)
      | None => w
      end
  | TxRollback =>
      mkWorld (committed w) None (sqs w)
              (quotes_created_total w) (policies_issued_total w)
  | CreateQuote q => write (insertQuote q) w
  | SqsPublish e =>
      mkWorld (committed w) (inTx w) (sqs w ++ [e])
              (quotes_created_total w) (policies_issued_total w)
  | MetricInc name => metricInc name w
  end.

Definition run (ops : list Op) (w : World) : World := fold_left perform ops w.

(** What is left after the process dies: the open transaction is gone. *)
Definition crash (w : World) : World :=
  mkWorld (committed w) None (sqs w)
          (quotes_created_total w) (policies_issued_total w).

(** HTTP outcomes of the two routes. *)
Inductive Response (A : Type) : Type :=
| BadRequest400
| NotFound404
| Conflict409
| ServerError500
| Created201 (a : A).
Arguments BadRequest400 {A}.
Arguments NotFound404 {A}.
Arguments Conflict409 {A}.
Arguments ServerError500 {A}.
Arguments Created201 {A} a.

(** Where a database error strikes inside the transaction, if it does. *)
Inductive TxFailure : Type := AtCreatePolicy | AtUpdateQuote | AtCommit.

(** What a request reads from outside the database: the clock, and the
    outcomes of the Customer Service and of the database driver. *)
Record Env : Type := mkEnv {
  nowMs : Z;
  today : Date;
  customers : gmap Z Pricing.RiskProfile;
  txFailure : option TxFailure
}.

(** Body of [POST /quotes]. *)
Record QuoteRequest : Type := mkQuoteRequest {
  req_customerId : Z;
  req_coverageAmount : Q;
  req_termYears : Z
}.

(** Step 1 of [POST /quotes]: coverageAmount > 0 and termYears > 0
    ([customerId] is an integer by its type). *)
Definition validQuoteRequest (r : QuoteRequest) : bool :=
  negb (Qle_bool (req_coverageAmount r) 0) && (0 <? req_termYears r)%Z.

(** [POST /quotes] (DetailedDesign.md, 4.3.1), steps 1 to 7: the response
    and the effects.  A customer the Customer Service does not know is a
    404 (UseCases, UC-2, 2a). *)
Definition createQuotePlan (env : Env) (r : QuoteRequest) (d : Db)
  : Response Quote * list Op :=
  (* 1. validate request body *)
  if negb (validQuoteRequest r) then (BadRequest400, [])
  else
    (* 2-3. confirm the customer exists and fetch its details *)
    match customers env !! req_customerId r with
    | None => (NotFound404, [])
    | Some customer =>
        (* 4. pricingService.calculatePremium *)
        let premium :=
          Pricing.calculatePremium customer (req_coverageAmount r) (req_termYears r) in
        (* 5. create the Quote with status PENDING *)
        let quote :=
          mkQuote (nextQuoteId d) (req_customerId r) (req_coverageAmount r)
                  (req_termYears r) premium PENDING in
        (* 6. increment quotes_created_total; 7. return 201 *)
        (Created201 quote, [CreateQuote quote; MetricInc "quotes_created_total"])
    end.

Definition createQuote (env : Env) (r : QuoteRequest) (w : World)
  : Response Quote * World :=
  let '(resp, ops) := createQuotePlan env r (committed w) in
  (resp, run ops w).

(** The POLICY_ISSUED message for a policy. *)
Definition policyIssued (env : Env) (p : Policy) : Event :=
  mkEvent "POLICY_ISSUED" (policy_id p) (policy_customerId p) (nowMs env).

(** [POST /quotes/:id/accept] (DetailedDesign.md, 4.3.2), steps 1 to 9.
    [idParam] is the route parameter, [None] when it is not an integer.
    A database error inside the transaction rolls it back and answers
    500 (UseCases, UC-4, 4a). *)
Definition acceptQuotePlan (env : Env) (idParam : option Z) (d : Db)
  : Response Policy * list Op :=
  (* 1. validate that id is an integer *)
  match idParam with
  | None => (BadRequest400, [])
  | Some id =>
      (* 2. fetch the Quote by id; 3. not found: 404 *)
      match quotes d !! id with
      | None => (NotFound404, [])
      | Some quote =>
          (* 4. status != PENDING: 409 Conflict *)
          if negb (isPENDING (quote_status quote)) then (Conflict409, [])
          else
            let start := today env in
            let policy :=
              mkPolicy (nextPolicyId d)
                       ("LS-" +:+ pretty (nowMs env) +:+ "-" +:+ pretty (quote_id quote))
                       (quote_customerId quote)
                       (quote_id quote)
                       start
                       (addYears start (termYears quote))
                       ACTIVE in
            match txFailure env with
            | Some AtCreatePolicy =>
                (ServerError500, [TxBegin; TxRollback])
            | Some AtUpdateQuote =>
                (ServerError500, [TxBegin; CreatePolicy policy; TxRollback])
            | Some AtCommit =>
                (ServerError500,
                 [TxBegin; CreatePolicy policy; UpdateQuoteStatus id ACCEPTED;
                  TxRollback])
            | None =>
                (Created201 policy,                           (* 9. 201 Created *)
                 [TxBegin;                                    (* 5. transaction *)
                  CreatePolicy policy;
                  UpdateQuoteStatus id ACCEPTED;
                  TxCommit;                                   (* 6. commit *)
                  SqsPublish (policyIssued env policy);       (* 7. publish *)
                  MetricInc "policies_issued_total"])         (* 8. metrics *)
            end
      end
  end.

Definition acceptQuote (env : Env) (idParam : option Z) (w : World)
  : Response Policy * World :=
  let '(resp, ops) := acceptQuotePlan env idParam (committed w) in
  (resp, run ops w).

(** A sequence of accept requests, one after the other. *)
Fixpoint acceptAll (calls : list (Env * option Z)) (w : World) : World :=
  match calls with
  | [] => w
  | (env, idParam) :: rest => acceptAll rest (snd (acceptQuote env idParam w))
  end.

(** ** Vocabulary of the specification *)

(** The writes a handler performs inside its transaction: what lies
    between [TxBegin] and the [TxCommit] or [TxRollback] that closes it. *)
Fixpoint untilClose (ops : list Op) : list Op :=
  match ops with
  | [] => []
  | TxCommit :: _ | TxRollback :: _ => []
  | o :: rest => o :: untilClose rest
  end.

Fixpoint insideTx (ops : list Op) : list Op :=
  match ops with
  | [] => []
  | TxBegin :: rest => untilClose rest
  | _ :: rest => insideTx rest
  end.

(** An effect that records the POLICY_ISSUED event of a policy. *)
Definition recordsEvent (p : Policy) (o : Op) : bool :=
  match o with
  | SqsPublish e =>
      String.eqb (event_type e) "POLICY_ISSUED" && (event_policyId e =? policy_id p)%Z
  | _ => false
  end.

(** The policy is in the committed database. *)
Definition issued (p : Policy) (w : World) : Prop :=
  policies (committed w) !! policy_id p = Some p.

(** Some durable record of the policy's POLICY_ISSUED event exists. *)
Definition eventOnRecord (p : Policy) (w : World) : Prop :=
  exists e, In e (sqs w) /\ event_type e = "POLICY_ISSUED" /\
            event_policyId e = policy_id p.

(** At most one policy per quote. *)
Definition onePolicyPerQuote (d : Db) : Prop :=
  forall i j p p', policies d !! i = Some p -> policies d !! j = Some p' ->
                   quoteId p = quoteId p' -> i = j.

(** Rows are stored under their own id, no policy refers to a PENDING
    quote, and no quote has two policies. *)
Definition consistent (d : Db) : Prop :=
  (forall i q, quotes d !! i = Some q -> quote_id q = i) /\
  (forall i p q, policies d !! i = Some p -> quotes d !! quoteId p = Some q ->
                 quote_status q <> PENDING) /\
  onePolicyPerQuote d.

(** ** Sample data *)

Definition sampleQuote : Quote :=
  mkQuote 7 42 10000000 20 (45833 # 100) PENDING.

Definition sampleDb : Db := mkDb {[ 7%Z := sampleQuote ]} ∅ 8 1.

Definition sampleWorld : World := mkWorld sampleDb None [] 1 0.

(** The same world once quote 7 has been accepted as policy 1. *)
Definition acceptedWorld : World :=
  mkWorld (mkDb {[ 7%Z := withStatus ACCEPTED sampleQuote ]}
                {[ 1%Z := mkPolicy 1 "LS-1764583200000-7" 42 7 (mkDate 2025 12 1)
                                   (mkDate 2045 12 1) ACTIVE ]}
                8 2)
          None
          [mkEvent "POLICY_ISSUED" 1 42 1764583200000] 1 1.

Definition sampleEnv : Env :=
  mkEnv 1764583200000 (mkDate 2025 12 1)
        {[ 42%Z := Pricing.mkRisk 35 false Pricing.LOW ]} None.

(** The outbox property of the specification: every successful
    acceptance writes, inside its transaction, a record of the
    POLICY_ISSUED event. *)
Definition eventRecordedInTransaction (env : Env) (id : Z) (w : World) : Prop :=
  forall p ops,
    acceptQuotePlan env (Some id) (committed w) = (Created201 p, ops) ->
    exists o, In o (insideTx ops) /\ recordsEvent p o = true.

(** The database after a committed issuance of [p] from quote [id]. *)
Definition afterIssuance (id : Z) (p : Policy) (d : Db) : Db :=
  updateQuoteStatus id ACCEPTED (insertPolicy p d).

End Issuance.

(* ===================================================================== *)
(** * Notification Service: the SQS consumer loop *)
(* ===================================================================== *)

Module Worker.

(** An SQS message as [receiveMessage] returns it. *)
Record Message : Type := mkMessage {
  MessageId : string;
  ReceiptHandle : string;
  Body : string
}.

Inductive Error : Type :=
| SyntaxError      (* JSON.parse on a malformed body *)
| TypeError        (* property access on null *)
| SqsError.        (* a rejected SQS call *)

(** How a call ends: with a value, or by throwing. *)
Inductive Completion (A : Type) : Type :=
| Normal (a : A)
| Throw (e : Error).
Arguments Normal {A} a.
Arguments Throw {A} e.

(** The worker and what it talks to: the messages SQS still holds, the
    dead-letter queue the design mentions as an option, the log, and the
    two counters of [metrics]. *)
Record World : Type := mkWorld {
  queue : list Message;
  deadLetters : list Message;
  logs : list LogEntry;
  processed : nat;
  failed : nat
}.

Definition logger (l : Level) (t : string) (m : list (string * Js)) (w : World) : World :=
  mkWorld (queue w) (deadLetters w) (logs w ++ [mkLog l t m]) (processed w) (failed w).

Definition incrementProcessed (w : World) : World :=
  mkWorld (queue w) (deadLetters w) (logs w) (S (processed w)) (failed w).

Definition incrementFailed (w : World) : World :=
  mkWorld (queue w) (deadLetters w) (logs w) (processed w) (S (failed w)).

Definition errorName (e : Error) : string :=
  match e with
  | SyntaxError => "SyntaxError"
  | TypeError => "TypeError"
  | SqsError => "SqsError"
  end.

Definition messageJs (m : Message) : Js :=
  JObj [("MessageId", JStr (MessageId m));
        ("ReceiptHandle", JStr (ReceiptHandle m));
        ("Body", JStr (Body m))].

(** [v.k] : reading a property of null or undefined throws, of an object
    gives the field, of anything else gives undefined. *)
Definition getProp (k : string) (v : Js) : Completion Js :=
  match v with
  | JUndefined | JNull => Throw TypeError
  | JObj fields => Normal (fieldOf k fields)
  | _ => Normal JUndefined
  end.

(** The destructuring pattern [{ policyId, customerId }] applied to a
    value that is neither null nor undefined. *)
Definition field (k : string) (v : Js) : Js :=
  match v with
  | JObj fields => fieldOf k fields
  | _ => JUndefined
  end.

(** [x === 'POLICY_ISSUED'] *)
Definition isPolicyIssued (x : Js) : bool :=
  match x with
  | JStr s => String.eqb s "POLICY_ISSUED"
  | _ => false
  end.

Definition welcomeText : string := "Simulating welcome email for policy".

(** [handlePolicyIssued({ policyId, customerId })]: the notification. *)
Definition handlePolicyIssued (body : Js) (w : World) : World :=
  logger info welcomeText
         [("policyId", field "policyId" body); ("customerId", field "customerId" body)] w.

(** What one [receiveMessage] call hands to the loop: a message, and
    whether the later [deleteMessage] for it will be accepted by SQS. *)
Record Delivery : Type := mkDelivery {
  message : Message;
  deleteSucceeds : bool
}.

(** The outcome of one [receiveMessage] call; [Messages] may be absent. *)
Inductive Receive : Type :=
| ReceiveFails
| Received (Messages : option (list Delivery)).

(** [sqs.deleteMessage({ ReceiptHandle })] *)
Definition deleteMessage (d : Delivery) (w : World) : Completion World :=
  if deleteSucceeds d then
    Normal (mkWorld
              (filter (fun m => ReceiptHandle m <> ReceiptHandle (message d)) (queue w))
              (deadLetters w) (logs w) (processed w) (failed w))
  else Throw SqsError.

Section Consumer.

(** [JSON.parse]; [None] when it throws a SyntaxError. *)
Variable JSON_parse : string -> option Js.

Definition handleMessage (msg : Message) (w : World) : Completion World :=
  match JSON_parse (Body msg) with
  | None => Throw SyntaxError
  | Some body =>
      match getProp "type" body with
      | Throw e => Throw e
      | Normal type =>
          if isPolicyIssued type then Normal (handlePolicyIssued body w)
          else Normal (logger warn "Unhandled message type" [("type", type)] w)
      end
  end.

(** The [catch (err)] block of the inner [try]. *)
Definition onMessageError (err : Error) (msg : Message) (w : World) : World :=
  incrementFailed
    (logger error "Error processing SQS message"
            [("err", JStr (errorName err)); ("msg", messageJs msg)] w).

(** The body of [for (const msg of messages.Messages)].  The call
    [metrics.observeProcessingDuration], which only records how long the
    message took, is left out. *)
Definition processMessage (w : World) (d : Delivery) : World :=
  match handleMessage (message d) w with
  | Throw err => onMessageError err (message d) w
  | Normal w1 =>
      match deleteMessage d w1 with
      | Throw err => onMessageError err (message d) w1
      | Normal w2 => incrementProcessed w2
      end
  end.

(** One turn of [while (true)]. *)
Definition pollIteration (w : World) (r : Receive) : World :=
  match r with
  | ReceiveFails =>
      logger error "Error in SQS polling loop" [("err", JStr (errorName SqsError))] w
  | Received None => w
  | Received (Some []) => w
  | Received (Some ds) => fold_left processMessage ds w
  end.

(** The loop, run for as many turns as there are receive outcomes. *)
Definition poll (rs : list Receive) (w : World) : World :=
  fold_left pollIteration rs w.

End Consumer.

(** ** Vocabulary of the specification *)

(** The notification side effects performed so far. *)
Definition isNotification (e : LogEntry) : bool := String.eqb (text e) welcomeText.

Definition notifications (w : World) : nat :=
  length (List.filter isNotification (logs w)).

(** The message is still held by SQS. *)
Definition held (m : Message) (w : World) : Prop := In m (queue w).

(** The number of messages the loop has finished with, either way. *)
Definition handled (w : World) : nat := (processed w + failed w)%nat.

(** ** Sample messages

    [JSON.parse] restricted to the bodies the examples below use: three
    well-formed bodies with the values they parse to; every other body
    used there is malformed. *)
Definition dq : string := String (Ascii.ascii_of_nat 34) EmptyString.

Definition quoted (s : string) : string := dq +:+ s +:+ dq.

(** [{"type":"POLICY_ISSUED","policyId":42,"customerId":10}] *)
Definition issuedBody : string :=
  "{" +:+ quoted "type" +:+ ":" +:+ quoted "POLICY_ISSUED" +:+ ","
      +:+ quoted "policyId" +:+ ":42," +:+ quoted "customerId" +:+ ":10}".

Definition issuedJs : Js :=
  JObj [("type", JStr "POLICY_ISSUED"); ("policyId", JNum 42); ("customerId", JNum 10)].

(** [{"type":"POLICY_CANCELLED"}] *)
Definition otherBody : string :=
  "{" +:+ quoted "type" +:+ ":" +:+ quoted "POLICY_CANCELLED" +:+ "}".

Definition otherJs : Js := JObj [("type", JStr "POLICY_CANCELLED")].

Definition sampleParse (s : string) : option Js :=
  if String.eqb s issuedBody then Some issuedJs
  else if String.eqb s otherBody then Some otherJs
  else if String.eqb s "null" then Some JNull
  else None.

Definition issuedMessage : Message := mkMessage "m-1" "rh-1" issuedBody.

Definition malformedMessage : Message := mkMessage "m-2" "rh-2" "not json".

Definition nullMessage : Message := mkMessage "m-3" "rh-3" "null".

(** A worker that has done nothing yet, and a queue holding the three
    messages. *)
Definition sampleWorld : World :=
  mkWorld [issuedMessage; malformedMessage; nullMessage] [] [] 0 0.

(** Every delivery handed to the loop by a run of receive outcomes. *)
Definition deliveries (rs : list Receive) : list Delivery :=
  flat_map (fun r => match r with
                     | Received (Some ds) => ds
                     | _ => []
                     end) rs.

(** A message whose body parses to an object of type POLICY_ISSUED. *)
Definition announcesIssue (JSON_parse : string -> option Js) (msg : Message) : Prop :=
  exists body ty,
    JSON_parse (Body msg) = Some body /\ getProp "type" body = Normal ty /\
    isPolicyIssued ty = true.

(** Processing of a delivery fails: the handler throws, or the delete
    call is rejected. *)
Definition processingFails (JSON_parse : string -> option Js) (d : Delivery) (w : World)
  : Prop :=
  (exists e, handleMessage JSON_parse (message d) w = Throw e) \/ deleteSucceeds d = false.

End Worker.

(* ===================================================================== *)
(** * lifeshield-api: request id middleware and error handler *)
(* ===================================================================== *)

Module Api.

(** The parts of an Express request and response the two handlers touch.
    [headers] holds the incoming headers under their lower-cased names;
    [requestId] is [None] until the middleware has run. *)
Record Request : Type := mkRequest {
  headers : gmap string string;
  requestId : option string
}.

Record Response : Type := mkResponse {
  responseHeaders : gmap string string;
  statusCode : Z;
  body : option Js
}.

(** The source of [uuidv4()]: the [issued]-th call returns [uuidAt issued]. *)
Record Uuids : Type := mkUuids {
  issued : nat;
  uuidAt : nat -> string
}.

Definition uuidv4 (u : Uuids) : string * Uuids :=
  (uuidAt u (issued u), mkUuids (S (issued u)) (uuidAt u)).

(** [res.setHeader(name, value)] *)
Definition setHeader (name value : string) (res : Response) : Response :=
  mkResponse (<[name := value]> (responseHeaders res)) (statusCode res) (body res).

(** [res.status(code)] *)
Definition status (code : Z) (res : Response) : Response :=
  mkResponse (responseHeaders res) code (body res).

(** [res.json(value)] *)
Definition json (value : Js) (res : Response) : Response :=
  mkResponse (responseHeaders res) (statusCode res) (Some value).

(** How a middleware ends: it hands over to the next one, or it has
    answered. *)
Inductive Control : Type := Next | Done.

(** An absent header reads as undefined, and so does an absent
    [req.requestId]. *)
Definition headerJs (h : option string) : Js :=
  match h with
  | Some s => JStr s
  | None => JUndefined
  end.

(** middleware/requestId.js.  [existing || uuidv4()] calls [uuidv4] only
    when [existing] is falsy: undefined or the empty string. *)
Definition requestIdMiddleware (req : Request) (res : Response) (u : Uuids)
  : Request * Response * Uuids * Control :=
  let existing := headers req !! "x-request-id" in
  let '(requestId, u') :=
    match existing with
    | Some s => if truthy (JStr s) then (s, u) else uuidv4 u
    | None => uuidv4 u
    end in
  let req' := mkRequest (headers req) (Some requestId) in
  let res' := setHeader "X-Request-Id" requestId res in
  (req', res', u', Next).

(** A thrown value as the error handler reads it: [err.message] and
    [err.stack], either of which may be undefined. *)
Record Thrown : Type := mkThrown {
  message : Js;
  stack : Js
}.

(** The error-handling middleware of [createApp]. *)
Definition errorHandler (err : Thrown) (req : Request) (res : Response)
    (log : list LogEntry) : Response * list LogEntry * Control :=
  let log' :=
    log ++ [mkLog error "Unhandled error"
                  [("error", message err);
                   ("stack", stack err);
                   ("requestId", headerJs (requestId req))]] in
  let res' :=
    json (JObj [("errorCode", JStr "INTERNAL_ERROR");
                ("message", JStr "Unexpected server error")])
         (status 500 res) in
  (res', log', Done).

(** The id a request ends up with, as the specification words it: the incoming
    header when present and non-empty, else the next UUID. *)
Definition spec_requestId (req : Request) (u : Uuids) : string :=
  match headers req !! "x-request-id" with
  | Some s => if decide (s = EmptyString) then fst (uuidv4 u) else s
  | None => fst (uuidv4 u)
  end.

(** ** Sample data *)

Definition sampleUuids : Uuids :=
  mkUuids 0 (fun n => "3f2b8c1e-5d4a-4e6f-9a7b-0c1d2e3f4a5b-" +:+ pretty n).

Definition blankResponse : Response := mkResponse ∅ 200 None.

Definition requestWithId : Request :=
  mkRequest {[ "x-request-id" := "client-7" ]} None.

Definition requestWithoutId : Request := mkRequest ∅ None.

Definition requestWithEmptyId : Request :=
  mkRequest {[ "x-request-id" := EmptyString ]} None.

End Api.

(* ===================================================================== *)
(** * Pricing: the brackets and the range of the risk factor *)
(* ===================================================================== *)

Module Brackets.

Local Open Scope Q_scope.

(** The age bracket [calculatePremium] puts an age in: its [if] chain
    compares with 50, 40 and 30, in that order. *)
Definition ageBracket (a : Z) : nat :=
  if (a >? 50)%Z then 3
  else if (a >? 40)%Z then 2
  else if (a >? 30)%Z then 1
  else 0.



End Brackets.

(* ===================================================================== *)
(** * Policy Service: reading a policy back, and request sequences *)
(* ===================================================================== *)

Module PolicyRoutes.

Import Issuance.

(** Outcome of a read route. *)
Inductive Fetched (A : Type) : Type :=
| Ok200 (a : A)
| Missing404.
Arguments Ok200 {A} a.
Arguments Missing404 {A}.

(** [GET /policies/:id] (DetailedDesign.md, 4.3.3): fetch the policy by
    id and return it, or 404 if not found. *)
Definition getPolicy (id : Z) (w : World) : Fetched Policy :=
  match policies (committed w) !! id with
  | Some p => Ok200 p
  | None => Missing404
  end.

(** The two write routes of the Policy Service. *)
Inductive Call : Type :=
| PostQuote (r : QuoteRequest)
| PostAccept (idParam : option Z).

Definition serve (w : World) (c : Env * Call) : World :=
  match c with
  | (env, PostQuote r) => snd (createQuote env r w)
  | (env, PostAccept idParam) => snd (acceptQuote env idParam w)
  end.

(** Requests served one after the other. *)
Definition serveAll (calls : list (Env * Call)) (w : World) : World :=
  fold_left serve calls w.

(** Every stored row has an id below its table's auto-increment counter. *)
Definition idsBelowCounters (d : Db) : Prop :=
  (forall i q, quotes d !! i = Some q -> (i < nextQuoteId d)%Z) /\
  (forall i p, policies d !! i = Some p -> (i < nextPolicyId d)%Z).

(** Every policy is stored under its own id and refers to a stored quote. *)
Definition policiesReferToQuotes (d : Db) : Prop :=
  forall i p, policies d !! i = Some p ->
              policy_id p = i /\ is_Some (quotes d !! quoteId p).

Definition wellFormed (d : Db) : Prop :=
  consistent d /\ idsBelowCounters d /\ policiesReferToQuotes d.

(** Two versions of a quote that differ at most in their status. *)
Definition sameButStatus (q q' : Quote) : Prop :=
  quote_id q' = quote_id q /\ quote_customerId q' = quote_customerId q /\
  coverageAmount q' = coverageAmount q /\ termYears q' = termYears q /\
  monthlyPremium q' = monthlyPremium q.

(** The status moves a quote may make: none, or PENDING to ACCEPTED. *)
Definition statusStep (s s' : QuoteStatus) : Prop :=
  s' = s \/ (s = PENDING /\ s' = ACCEPTED).

(** The policy number of the design: LS-, the clock in milliseconds, a
    dash, the quote id. *)
Definition numbered (p : Policy) : Prop :=
  exists now : Z, (0 <= now)%Z /\
    policyNumber p = "LS-" +:+ pretty now +:+ "-" +:+ pretty (quoteId p).

(** The string has no dash in it. *)
Definition dash : Ascii.ascii := Ascii.ascii_of_nat 45.

Fixpoint noDash (s : string) : bool :=
  match s with
  | EmptyString => true
  | String c rest => negb (Ascii.eqb c dash) && noDash rest
  end.

Definition policiesNumbered (d : Db) : Prop :=
  forall i p, policies d !! i = Some p -> numbered p.

(** How the world may differ after some requests: quotes are kept and
    change at most their status, by an allowed move; policies are kept;
    and each counter has grown by what was added. *)
Definition evolves (w w' : World) : Prop :=
  (forall j q, quotes (committed w) !! j = Some q ->
     exists q', quotes (committed w') !! j = Some q' /\ sameButStatus q q' /\
                statusStep (quote_status q) (quote_status q')) /\
  (forall i p, policies (committed w) !! i = Some p ->
               policies (committed w') !! i = Some p) /\
  (policies_issued_total w' + size (policies (committed w))
     = policies_issued_total w + size (policies (committed w')))%nat /\
  (policies_issued_total w' + length (sqs w)
     = policies_issued_total w + length (sqs w'))%nat /\
  (quotes_created_total w' + size (quotes (committed w))
     = quotes_created_total w + size (quotes (committed w')))%nat.

(** Sample requests: a quote for customer 42, then the acceptance of
    quote 7 and of the quote just created. *)
Definition sampleCalls : list (Env * Call) :=
  [(sampleEnv, PostQuote (mkQuoteRequest 42 5000000 10));
   (sampleEnv, PostAccept (Some 7%Z));
   (sampleEnv, PostAccept (Some 8%Z));
   (sampleEnv, PostAccept (Some 7%Z))].

Definition emptyDb : Db := mkDb ∅ ∅ 1 1.

Definition emptyWorld : World := mkWorld emptyDb None [] 0 0.

End PolicyRoutes.

(* ===================================================================== *)
(** * Notification Service: which deliveries are acknowledged *)
(* ===================================================================== *)

Module Acknowledgement.

Import Worker.

(** [handleMessage] completes on the message: the body parses and is not
    null, so that [body.type] can be read. *)
Definition completes (JSON_parse : string -> option Js) (m : Message) : bool :=
  match JSON_parse (Body m) with
  | Some body =>
      match getProp "type" body with
      | Normal _ => true
      | Throw _ => false
      end
  | None => false
  end.

(** [handleMessage] takes the POLICY_ISSUED branch on the message. *)
Definition notifies (JSON_parse : string -> option Js) (m : Message) : bool :=
  match JSON_parse (Body m) with
  | Some body =>
      match getProp "type" body with
      | Normal ty => isPolicyIssued ty
      | Throw _ => false
      end
  | None => false
  end.

(** The delivery ends in [metrics.incrementProcessed]: the handler
    completes and the delete call is accepted. *)
Definition acknowledged (JSON_parse : string -> option Js) (d : Delivery) : bool :=
  completes JSON_parse (message d) && deleteSucceeds d.

(** A mixed run: a good message whose delete is rejected and which is
    then delivered again, a malformed one, one of an unknown type, and a
    failed receive in between. *)
Definition mixedRun : list Receive :=
  [Received (Some [mkDelivery issuedMessage false; mkDelivery malformedMessage true]);
   ReceiveFails;
   Received None;
   Received (Some [mkDelivery (mkMessage "m-4" "rh-4" otherBody) true;
                   mkDelivery issuedMessage true])].

End Acknowledgement.

(* ===================================================================== *)
(** * lifeshield-api: request ids over several requests *)
(* ===================================================================== *)

Module Correlation.

Import Api.

(** The client sent a usable x-request-id: present and not empty. *)
Definition hasClientId (req : Request) : bool :=
  match headers req !! "x-request-id" with
  | Some s => truthy (JStr s)
  | None => false
  end.

(** [requestIdMiddleware] applied to requests arriving one after the
    other, each with a response of its own: the id every request ends up
    with, and the UUID source afterwards. *)
Fixpoint assignIds (reqs : list Request) (res : Response) (u : Uuids)
  : list (option string) * Uuids :=
  match reqs with
  | [] => ([], u)
  | req :: rest =>
      let '(req', _, u', _) := requestIdMiddleware req res u in
      let '(ids, u'') := assignIds rest res u' in
      (requestId req' :: ids, u'')
  end.

(** The UUID source never repeats itself. *)
Definition neverRepeats (u : Uuids) : Prop :=
  forall n m, uuidAt u n = uuidAt u m -> n = m.

End Correlation.

(* ===================================================================== *)
(** * Error classes and the global error middleware (DetailedDesign.md, 8) *)
(* ===================================================================== *)

Module ErrorClasses.

(** An error object as the middleware reads it: the four properties it
    looks at, each of which may be undefined. *)
Record Err : Type := mkErr {
  message : Js;
  statusCode : Js;
  errorCode : Js;
  details : Js
}.

(** [a || b] *)
Definition orElse (a b : Js) : Js := if truthy a then a else b.

(** A default parameter value [x = d]: taken when the argument is
    undefined, and only then. *)
Definition defaultArg (x d : Js) : Js :=
  match x with
  | JUndefined => d
  | _ => x
  end.

(** [new AppError(message, statusCode, errorCode)].  [super(message)]
    leaves the message empty when no message is given. *)
Definition AppError (msg : option string) (status code : Js) : Err :=
  mkErr (JStr (default EmptyString msg))
        (orElse status (JNum 500))
        (orElse code (JStr "INTERNAL_ERROR"))
        JUndefined.

(** [new NotFoundError(message, errorCode = 'NOT_FOUND')] *)
Definition NotFoundError (msg : option string) (code : Js) : Err :=
  AppError msg (JNum 404) (defaultArg code (JStr "NOT_FOUND")).

(** [new ValidationError(message, details = [])] *)
Definition ValidationError (msg : option string) (dets : Js) : Err :=
  let e := AppError msg (JNum 400) (JStr "VALIDATION_ERROR") in
  mkErr (message e) (statusCode e) (errorCode e) (defaultArg dets (JArr [])).

(** What [res.status(status).json(payload)] sends. *)
Record Reply : Type := mkReply {
  status : Js;
  payload : list (string * Js)
}.

Definition errJs (err : Err) : Js :=
  JObj [("message", message err); ("statusCode", statusCode err);
        ("errorCode", errorCode err); ("details", details err)].

(** [errorHandler(err, req, res, next)]; [path] is [req.path]. *)
Definition errorHandler (err : Err) (path : string) (log : list LogEntry)
  : Reply * list LogEntry :=
  let log' :=
    log ++ [mkLog error "Unhandled error" [("err", errJs err); ("path", JStr path)]] in
  let status := orElse (statusCode err) (JNum 500) in
  let payload :=
    [("errorCode", orElse (errorCode err) (JStr "INTERNAL_ERROR"));
     ("message", orElse (message err) (JStr "Unexpected error"))] in
  let payload :=
    if truthy (details err) then payload ++ [("details", details err)] else payload in
  (mkReply status payload, log').

(** The error was built by one of the three classes. *)
Inductive classBuilt : Err -> Prop :=
| builtApp msg status code : classBuilt (AppError msg status code)
| builtNotFound msg code : classBuilt (NotFoundError msg code)
| builtValidation msg dets : classBuilt (ValidationError msg dets).

End ErrorClasses.

(* ===================================================================== *)
(** * Pricing in double precision *)
(* ===================================================================== *)

(** [calculatePremium] once more, this time with JavaScript's numbers as
    they are: IEEE 754 binary64, every operation rounded to the nearest
    double, ties to even.  The module [Pricing] above computes the same
    expression in exact arithmetic; the two agree except where the exact
    value falls on a half-cent tie or within a rounding error of one. *)
Module Binary64.

Definition prec : Z := 53.
Definition emax : Z := 1024.

(** A JavaScript number. *)
Definition double : Type := SpecFloat.spec_float.

(** [Number(z)]: the double nearest to an integer, the integer itself
    when it is below 2^53 in magnitude. *)
Definition ofZ (z : Z) : double := SpecFloat.binary_normalize prec emax z 0 false.

Definition add : double -> double -> double := SpecFloat.SFadd prec emax.
Definition mul : double -> double -> double := SpecFloat.SFmul prec emax.
Definition div : double -> double -> double := SpecFloat.SFdiv prec emax.
Definition ltb : double -> double -> bool := SpecFloat.SFltb.

(** The double a decimal literal denotes, the literal being [n/d] with
    [n] and [d] integers below 2^53: the double nearest to the quotient. *)
Definition literal (n d : Z) : double := div (ofZ n) (ofZ d).

(** The rational a finite double stands for; 0 for an infinity or NaN. *)
Definition valueOf (x : double) : Q :=
  match x with
  | SpecFloat.S754_finite s m e =>
      let z := if s then Z.neg m else Z.pos m in
      match e with
      | Z0 => inject_Z z
      | Zpos p => inject_Z (z * 2 ^ Z.pos p)
      | Zneg p => z # (2 ^ p)
      end
  | _ => 0
  end.

Definition isFinite (x : double) : bool :=
  match x with
  | SpecFloat.S754_finite _ _ _ | SpecFloat.S754_zero _ => true
  | _ => false
  end.

(** base monthly rate per unit coverage *)
Definition baseRate : double := literal 5 10000.

(** Modelled from the spec: [roundToTwoDecimals] is defined nowhere in
    the repository.  As in [Pricing], it rounds half up to a whole number
    of cents; here it is given the value of the double it receives.  The
    premium is kept as that number of cents over 100. *)
Definition roundToTwoDecimals (x : double) : Q :=
  Pricing.roundToTwoDecimals (valueOf x).

(** [calculatePremium({ age, smoker, occupationRisk }, coverageAmount, termYears)],
    statement by statement; the product is evaluated from left to right. *)
Definition calculatePremium (c : Pricing.RiskProfile) (coverageAmount : double)
    (termYears : Z) : Q :=
  let riskFactor := literal 10 10 in
  let riskFactor :=
    if (Pricing.age c >? 50)%Z then add riskFactor (literal 3 10)
    else if (Pricing.age c >? 40)%Z then add riskFactor (literal 2 10)
    else if (Pricing.age c >? 30)%Z then add riskFactor (literal 1 10)
    else riskFactor in
  let riskFactor :=
    if Pricing.smoker c then add riskFactor (literal 5 10) else riskFactor in
  let riskFactor :=
    if Pricing.isMEDIUM (Pricing.occupationRisk c) then add riskFactor (literal 1 10)
    else riskFactor in
  let riskFactor :=
    if Pricing.isHIGH (Pricing.occupationRisk c) then add riskFactor (literal 25 100)
    else riskFactor in
  let monthlyPremium := div (mul (mul coverageAmount baseRate) riskFactor) (ofZ 12) in
  roundToTwoDecimals monthlyPremium.

(** ** The multiplier as the specification words it, in doubles *)

Definition zero : double := ofZ 0.

Definition spec_ageIncrement (a : Z) : double :=
  if ((50 <? a)%Z) then literal 3 10
  else if ((40 <? a) && (a <=? 50))%Z then literal 2 10
  else if ((30 <? a) && (a <=? 40))%Z then literal 1 10
  else zero.

Definition spec_smokerIncrement (s : bool) : double :=
  if s then literal 5 10 else zero.

Definition spec_occupationIncrement (o : Pricing.OccupationRisk) : double :=
  match o with
  | Pricing.LOW => zero
  | Pricing.MEDIUM => literal 1 10
  | Pricing.HIGH => literal 25 100
  end.

(** The multiplier starts at 1.0 and adds the three increments. *)
Definition spec_multiplier (c : Pricing.RiskProfile) : double :=
  add (add (add (literal 10 10) (spec_ageIncrement (Pricing.age c)))
           (spec_smokerIncrement (Pricing.smoker c)))
      (spec_occupationIncrement (Pricing.occupationRisk c)).

(** coverageAmount x baseRate x multiplier / 12, each operation rounded
    to the nearest double. *)
Definition spec_product (c : Pricing.RiskProfile) (coverageAmount : double) : double :=
  div (mul (mul coverageAmount baseRate) (spec_multiplier c)) (ofZ 12).

End Binary64.

(* ===================================================================== *)
(** * lifeshield-api: request metrics (metrics/metrics.js, app.js) *)
(* ===================================================================== *)

Module Metrics.

(** The two custom metrics.  A counter is the value under each label
    set, absent meaning 0; a histogram is kept as the values observed
    under each label set, in the order they came. *)
Record Registry : Type := mkRegistry {
  httpRequestsTotal : gmap (string * string * string) nat;
  httpRequestDurationSeconds : gmap (string * string) (list Q)
}.

(** [counter.labels(...).inc()] *)
Definition inc (labels : string * string * string)
    (c : gmap (string * string * string) nat) : gmap (string * string * string) nat :=
  <[labels := S (default 0%nat (c !! labels))]> c.

(** [histogram.labels(...).observe(v)] *)
Definition observe (labels : string * string) (v : Q)
    (h : gmap (string * string) (list Q)) : gmap (string * string) (list Q) :=
  <[labels := default [] (h !! labels) ++ [v]]> h.

(** [observeRequest(method, route, status, durationSeconds)];
    [String(status)] is the decimal numeral of the status code. *)
Definition observeRequest (method route : string) (status : Z) (durationSeconds : Q)
    (r : Registry) : Registry :=
  mkRegistry (inc (method, route, pretty status) (httpRequestsTotal r))
             (observe (method, route) durationSeconds (httpRequestDurationSeconds r)).

(** A request as the [finish] listener of the timing middleware sees it:
    [req.route] is absent when no route matched; the two clock readings
    are in nanoseconds. *)
Record Finished : Type := mkFinished {
  method : string;
  route : option string;
  path : string;
  statusCode : Z;
  startNs : Z;
  endNs : Z
}.

(** [req.route && req.route.path ? req.route.path : req.path] *)
Definition routeLabel (f : Finished) : string :=
  match route f with
  | Some p => if truthy (JStr p) then p else path f
  | None => path f
  end.

(** [Number(end - start) / 1e9]: the difference of the two clock
    readings becomes the nearest double, and the quotient by 1e9 is
    rounded to a double once more.  The histogram entry is kept as the
    rational that double stands for. *)
Definition durationSeconds (f : Finished) : Q :=
  Binary64.valueOf
    (Binary64.div (Binary64.ofZ (endNs f - startNs f)) (Binary64.ofZ 1000000000)).

(** The [finish] listener. *)
Definition onFinish (r : Registry) (f : Finished) : Registry :=
  observeRequest (method f) (routeLabel f) (statusCode f) (durationSeconds f) r.

(** The registry after a run of finished requests. *)
Definition finishAll (fs : list Finished) (r : Registry) : Registry :=
  fold_left onFinish fs r.

(** Reading a counter and a histogram. *)
Definition counterAt (r : Registry) (m l : string) (s : Z) : nat :=
  default 0%nat (httpRequestsTotal r !! (m, l, pretty s)).

Definition observedAt (r : Registry) (m l : string) : list Q :=
  default [] (httpRequestDurationSeconds r !! (m, l)).

Definition emptyRegistry : Registry := mkRegistry ∅ ∅.

Definition sampleTraffic : list Finished :=
  [mkFinished "GET" (Some "/health") "/health" 200 1000 2500;
   mkFinished "GET" None "/nowhere" 404 3000 3400;
   mkFinished "GET" (Some "/health") "/health" 200 5000 5900;
   mkFinished "POST" None "/health" 500 6000 9000].

End Metrics.

(* ===================================================================== *)
(** * The application: the order of the middleware in createApp *)
(* ===================================================================== *)

(** app.js mounts, in this order: [helmet()], [cors()], [express.json()],
    [requestIdMiddleware], the request logger, the timing middleware, the
    routes, and last the error handler.  A request runs through them in
    that order; a middleware that fails hands the request straight to
    the error handler, and the ones mounted after it never see it. *)
Module App.

(** What the three library middleware mounted ahead of
    [requestIdMiddleware] did with a request.  Their code is not part of
    the repository; the model takes their joint outcome as given. *)
Inductive Upstream : Type :=
| PassedOn                        (* each of them called next() *)
| BodyRejected (err : Api.Thrown) (* express.json() failed on the body: next(err) *)
| AnsweredEarly (code : Z).       (* one of them ended the response itself,
                                     as cors() does for a preflight *)

(** What the routes mounted after the timing middleware do with a
    request that reaches them: a handler (or Express's own not-found
    answer, with no route) responds, or a handler throws. *)
Inductive Downstream : Type :=
| Responds (route : option string) (code : Z) (payload : option Js)
| Throws (route : option string) (err : Api.Thrown).

Record Incoming : Type := mkIncoming {
  request : Api.Request;
  (** the response as the upstream middleware left it *)
  response : Api.Response;
  method : string;
  path : string;
  upstream : Upstream;
  downstream : Downstream;
  (** [process.hrtime.bigint()] in the timing middleware and in its
      [finish] listener *)
  startNs : Z;
  endNs : Z
}.

(** What the process keeps between requests.  The request logger adds an
    entry of its own when a response ends; that entry is left out, so
    [log] holds the entries of the error handler only. *)
Record Server : Type := mkServer {
  uuids : Api.Uuids;
  log : list LogEntry;
  registry : Metrics.Registry
}.

Definition routeOf (d : Downstream) : option string :=
  match d with
  | Responds route _ _ => route
  | Throws route _ => route
  end.

(** The request as the [finish] listener reads it, the response having
    ended with status [code]. *)
Definition finishedWith (i : Incoming) (code : Z) : Metrics.Finished :=
  Metrics.mkFinished (method i) (routeOf (downstream i)) (path i) code (startNs i) (endNs i).

(** One request through the application. *)
Definition handle (i : Incoming) (s : Server) : Api.Request * Api.Response * Server :=
  match upstream i with
  | AnsweredEarly code =>
      (request i, Api.status code (response i), s)
  | BodyRejected err =>
      (* straight to the error handler; no finish listener is installed *)
      let '(res1, log1, _) := Api.errorHandler err (request i) (response i) (log s) in
      (request i, res1, mkServer (uuids s) log1 (registry s))
  | PassedOn =>
      let '(req1, res1, uuids1, _) :=
        Api.requestIdMiddleware (request i) (response i) (uuids s) in
      (* the timing middleware reads the clock, installs the listener, calls next() *)
      match downstream i with
      | Responds _ code payload =>
          let res2 := Api.mkResponse (Api.responseHeaders res1) code payload in
          (req1, res2,
           mkServer uuids1 (log s) (Metrics.onFinish (registry s) (finishedWith i code)))
      | Throws _ err =>
          let '(res2, log2, _) := Api.errorHandler err req1 res1 (log s) in
          (req1, res2,
           mkServer uuids1 log2
             (Metrics.onFinish (registry s) (finishedWith i (Api.statusCode res2))))
      end
  end.

(** The server after a run of requests, each handled to its end. *)
Definition handleAll (rs : list Incoming) (s : Server) : Server :=
  fold_left (fun s i => snd (handle i s)) rs s.

(** ** Reading a request *)

(** The request got as far as the timing middleware. *)
Definition timed (i : Incoming) : bool :=
  match upstream i with
  | PassedOn => true
  | _ => false
  end.

(** The label [req.route && req.route.path ? req.route.path : req.path]
    yields: the route pattern when one matched and is non-empty, else
    the raw path. *)
Definition label (i : Incoming) : string :=
  match routeOf (downstream i) with
  | Some p => if decide (p = EmptyString) then path i else p
  | None => path i
  end.

(** The status the client receives from the routes: the handler's, or
    500 when the handler threw. *)
Definition answered (i : Incoming) : Z :=
  match downstream i with
  | Responds _ code _ => code
  | Throws _ _ => 500
  end.

(** The time between the two clock readings in seconds, as the
    listener computes it: [Number(end - start) / 1e9]. *)
Definition duration (i : Incoming) : Q :=
  Binary64.valueOf
    (Binary64.div (Binary64.ofZ (endNs i - startNs i)) (Binary64.ofZ 1000000000)).

(** ** Sample data *)

Definition malformedBody : Api.Thrown :=
  Api.mkThrown (JStr "Unexpected token } in JSON at position 17")
               (JStr "SyntaxError: Unexpected token } in JSON at position 17").

Definition handlerFailure : Api.Thrown :=
  Api.mkThrown (JStr "connect ECONNREFUSED") JUndefined.

Definition healthBody : Js :=
  JObj [("status", JStr "OK"); ("service", JStr "lifeshield-api"); ("uptime", JNum 12)].

(** GET /health with a client id. *)
Definition healthCheck : Incoming :=
  mkIncoming Api.requestWithId Api.blankResponse "GET" "/health" PassedOn
             (Responds (Some "/health") 200 (Some healthBody)) 1000 2500.

(** A POST with a client id and a body that is not JSON. *)
Definition rejectedWithId : Incoming :=
  mkIncoming Api.requestWithId Api.blankResponse "POST" "/quotes"
             (BodyRejected malformedBody) (Responds None 404 None) 3000 3400.

Definition unmatched : Incoming :=
  mkIncoming Api.requestWithoutId Api.blankResponse "GET" "/nowhere" PassedOn
             (Responds None 404 None) 5000 5900.

Definition preflight : Incoming :=
  mkIncoming Api.requestWithId Api.blankResponse "OPTIONS" "/health"
             (AnsweredEarly 204) (Responds None 404 None) 6000 6100.

Definition failing : Incoming :=
  mkIncoming Api.requestWithoutId Api.blankResponse "GET" "/metrics" PassedOn
             (Throws (Some "/metrics") handlerFailure) 7000 9000.

Definition sampleServer : Server := mkServer Api.sampleUuids [] Metrics.emptyRegistry.

Definition sampleRun : list Incoming :=
  [healthCheck; rejectedWithId; unmatched; preflight; failing; healthCheck].

End App.

(* ===================================================================== *)
(** * Policy Service: handlers that stop half-way *)
(* ===================================================================== *)

(** The plans of [createQuotePlan] and [acceptQuotePlan] list the effects
    of a handler in program order.  Any of them may be the last one: the
    step after it throws, or the process dies.  What is left is what the
    effects performed so far have written; a transaction still open is
    rolled back. *)
Module Interrupted.

Import Issuance PolicyRoutes.

(** The effects of a request, in program order. *)
Definition effects (c : Env * Call) (d : Db) : list Op :=
  match c with
  | (env, PostQuote r) => snd (createQuotePlan env r d)
  | (env, PostAccept idParam) => snd (acceptQuotePlan env idParam d)
  end.

(** A request whose handler stops after its first [k] effects; with [k]
    at least the number of effects, the handler runs to its end. *)
Definition serveUntil (w : World) (c : Env * Call * nat) : World :=
  crash (run (firstn (snd c) (effects (fst c) (committed w))) w).

Definition serveAllUntil (calls : list (Env * Call * nat)) (w : World) : World :=
  fold_left serveUntil calls w.

(** The acceptance of quote 7 stopped right after the commit, then a
    quote request stopped before its counter, then one that runs to its
    end. *)
Definition sampleStops : list (Env * Call * nat) :=
  [(sampleEnv, PostAccept (Some 7%Z), 4%nat);
   (sampleEnv, PostQuote (mkQuoteRequest 42 5000000 10), 1%nat);
   (sampleEnv, PostAccept (Some 8%Z), 6%nat)].

End Interrupted.

(* ===================================================================== *)
(** * Properties of the pricing function *)
(* ===================================================================== *)

Section PricingFacts.

Import Pricing.
Local Open Scope Q_scope.

(** The risk factor assembled by the source is the multiplier of the
    specification. *)
Lemma riskFactor_is_multiplier (c : RiskProfile) (cov : Q) (t : Z) :
  calculatePremium c cov t = roundToTwoDecimals (spec_exactPremium c cov).
Proof.
  unfold calculatePremium, spec_exactPremium, spec_multiplier, roundToTwoDecimals.
  f_equal. apply Qfloor_comp.
  unfold spec_ageIncrement, spec_smokerIncrement, spec_occupationIncrement.
  destruct c as [a s o]; cbn [age smoker occupationRisk].
  rewrite !Z.gtb_ltb.
  destruct (50 <? a)%Z eqn:H50; [|destruct (40 <? a)%Z eqn:H40; [|destruct (30 <? a)%Z eqn:H30]];
    cbn [andb];
    repeat match goal with
    | |- context [(?x <=? ?y)%Z] => destruct (Z.leb_spec x y)
    end;
    try (apply Z.ltb_lt in H50); try (apply Z.ltb_ge in H50);
    try (apply Z.ltb_lt in H40); try (apply Z.ltb_ge in H40);
    try (apply Z.ltb_lt in H30); try (apply Z.ltb_ge in H30);
    try lia;
    destruct s, o; cbn [isMEDIUM isHIGH]; field.
Qed.

Lemma cents_as_product (n : Z) : n # 100 == inject_Z n * (1 # 100).
Proof. unfold Qeq; cbn [Qnum Qden inject_Z Qmult]. lia. Qed.

(** [roundToTwoDecimals] rounds half up to a whole number of cents. *)
Lemma roundToTwoDecimals_halfUp (x : Q) : roundedHalfUp2 x (roundToTwoDecimals x).
Proof.
  unfold roundedHalfUp2, roundToTwoDecimals.
  exists (Qfloor (x * 100 + (1 # 2))). split; [reflexivity|].
  pose proof (Qfloor_le (x * 100 + (1 # 2))) as Hlo.
  pose proof (Qlt_floor (x * 100 + (1 # 2))) as Hhi.
  rewrite cents_as_product.
  rewrite inject_Z_plus in Hhi.
  set (n := inject_Z (Qfloor (x * 100 + (1 # 2)))) in *.
  change (inject_Z 1) with 1 in Hhi. clearbody n.
  split; lra.
Qed.





(** Evaluated in exact arithmetic, the expression of [calculatePremium]
    is coverageAmount x baseRate x multiplier / 12 rounded half up to
    two decimals, the multiplier being 1.0 plus exactly one age-bracket
    increment, plus 0.5 for a smoker, plus 0.1 for MEDIUM and 0.25 for
    HIGH occupation risk.  What the doubles of the running code make of
    it is in the section on double precision below. *)
Lemma calculatePremium_exact_formula (c : RiskProfile) (coverageAmount : Q) (termYears : Z) :
  roundedHalfUp2 (spec_exactPremium c coverageAmount)
                 (calculatePremium c coverageAmount termYears).
Proof.
  rewrite riskFactor_is_multiplier. apply roundToTwoDecimals_halfUp.
Qed.



(** The quote scenario of the design: age 35, non-smoker, LOW risk,
    coverage 10,000,000 gives 458.33 a month. *)
Example calculatePremium_scenario :
  calculatePremium (mkRisk 35 false LOW) 10000000 20 = 45833 # 100.
Proof. reflexivity. Qed.

Example calculatePremium_tie_rounds_up :
  calculatePremium (mkRisk 25 false LOW) 120 20 = 1 # 100.
Proof. reflexivity. Qed.

End PricingFacts.

(* ===================================================================== *)
(** * Properties of quote creation and acceptance *)
(* ===================================================================== *)

Section IssuanceFacts.

Import Issuance.

Lemma run_nil (w : World) : run [] w = w.
Proof. reflexivity. Qed.

(** The plan of a PENDING quote when the database does not fail. *)
Lemma acceptQuotePlan_pending (env : Env) (id : Z) (d : Db) (q : Quote) :
  quotes d !! id = Some q -> quote_status q = PENDING -> txFailure env = None ->
  let p := mkPolicy (nextPolicyId d)
                    ("LS-" +:+ pretty (nowMs env) +:+ "-" +:+ pretty (quote_id q))
                    (quote_customerId q) (quote_id q) (today env)
                    (addYears (today env) (termYears q)) ACTIVE in
  acceptQuotePlan env (Some id) d =
  (Created201 p,
   [TxBegin; CreatePolicy p; UpdateQuoteStatus id ACCEPTED; TxCommit;
    SqsPublish (policyIssued env p); MetricInc "policies_issued_total"]).
Proof.
  intros Hq Hst Hok. unfold acceptQuotePlan. rewrite Hq, Hst, Hok. reflexivity.
Qed.

(** The plan of a quote that is not PENDING. *)
Lemma acceptQuotePlan_not_pending (env : Env) (id : Z) (d : Db) (q : Quote) :
  quotes d !! id = Some q -> quote_status q <> PENDING ->
  acceptQuotePlan env (Some id) d = (Conflict409, []).
Proof.
  intros Hq Hst. unfold acceptQuotePlan. rewrite Hq.
  destruct (quote_status q); [congruence | reflexivity | reflexivity].
Qed.

(** Whatever the request, the committed database afterwards is either
    the one before or the one with the policy and the accepted quote. *)
Lemma acceptQuote_committed (env : Env) (idParam : option Z) (w : World) :
  committed (snd (acceptQuote env idParam w)) = committed w \/
  exists id q p,
    idParam = Some id /\ quotes (committed w) !! id = Some q /\
    quote_status q = PENDING /\ quoteId p = quote_id q /\
    policy_id p = nextPolicyId (committed w) /\
    committed (snd (acceptQuote env idParam w)) = afterIssuance id p (committed w).
Proof.
  unfold acceptQuote, acceptQuotePlan.
  destruct idParam as [id|]; [|left; reflexivity].
  destruct (quotes (committed w) !! id) as [q|] eqn:Hq; [|left; reflexivity].
  destruct (quote_status q) eqn:Hst; cbn [isPENDING negb]; try (left; reflexivity).
  destruct (txFailure env) as [[]|]; try (left; reflexivity).
  right. eexists id, q, _. repeat split; try eassumption; reflexivity.
Qed.

Lemma afterIssuance_consistent (id : Z) (q : Quote) (p : Policy) (d : Db) :
  consistent d -> quotes d !! id = Some q -> quote_status q = PENDING ->
  quoteId p = quote_id q -> consistent (afterIssuance id p d).
Proof.
  intros (Hkey & Hpend & Huniq) Hq Hst Hp.
  assert (Hpid : quoteId p = id) by (rewrite Hp; apply Hkey; exact Hq).
  unfold afterIssuance, updateQuoteStatus, insertPolicy, consistent; cbn.
  split; [|split].
  - intros i q'. rewrite lookup_alter. case_decide as Hi.
    + subst i. rewrite Hq. cbn. intros [= <-]. cbn. apply Hkey; exact Hq.
    + apply Hkey.
  - intros i p' q'. rewrite lookup_insert, lookup_alter.
    case_decide as Hi.
    + intros [= <-]. rewrite Hpid. rewrite decide_True by reflexivity.
      rewrite Hq. cbn. intros [= <-]. cbn. discriminate.
    + intros Hp'. case_decide as Hqi.
      * rewrite Hq. cbn. intros [= <-]. cbn. discriminate.
      * apply (Hpend i); exact Hp'.
  - unfold onePolicyPerQuote; cbn. intros i j p1 p2. rewrite !lookup_insert.
    destruct (decide (policy_id p = i)) as [Hi|Hi], (decide (policy_id p = j)) as [Hj|Hj].
    + congruence.
    + intros [= <-] Hp2 Heq. exfalso.
      apply (Hpend j p2 q); [exact Hp2 | rewrite <- Heq, Hpid; exact Hq | exact Hst].
    + intros Hp1 [= <-] Heq. exfalso.
      apply (Hpend i p1 q); [exact Hp1 | rewrite Heq, Hpid; exact Hq | exact Hst].
    + apply Huniq.
Qed.

Lemma acceptQuote_consistent (env : Env) (idParam : option Z) (w : World) :
  consistent (committed w) -> consistent (committed (snd (acceptQuote env idParam w))).
Proof.
  intros Hc. destruct (acceptQuote_committed env idParam w) as [-> | H]; [exact Hc|].
  destruct H as (id & q & p & _ & Hq & Hst & Hp & _ & ->).
  eapply afterIssuance_consistent; eassumption.
Qed.

Lemma acceptAll_consistent (calls : list (Env * option Z)) (w : World) :
  consistent (committed w) -> consistent (committed (acceptAll calls w)).
Proof.
  revert w. induction calls as [|[env idParam] rest IH]; intros w Hc; cbn [acceptAll].
  - exact Hc.
  - apply IH, acceptQuote_consistent, Hc.
Qed.

Lemma sampleQuote_lookup : quotes (committed sampleWorld) !! 7%Z = Some sampleQuote.
Proof. apply lookup_singleton_eq. Qed.

Lemma sampleDb_consistent : consistent (committed sampleWorld).
Proof.
  unfold consistent; cbn. split; [|split].
  - intros i q [<- <-]%lookup_singleton_Some. reflexivity.
  - intros i p q Hp. rewrite lookup_empty in Hp. discriminate.
  - intros i j p p' Hp. cbn in Hp. rewrite lookup_empty in Hp. discriminate.
Defined.

(** C1, as the code has it. A successful acceptance inserts the Policy
    and flips the Quote inside one transaction, which takes effect as a
    whole or not at all, and publishes the POLICY_ISSUED message
    {policyId, customerId, issuedAt} to SQS only after the commit; no
    event record is written inside the transaction. *)
Theorem acceptQuote_publishes_after_commit
    (env : Env) (id : Z) (w : World) (q : Quote) (k : nat) :
  quotes (committed w) !! id = Some q -> quote_status q = PENDING ->
  (txFailure env = None ->
   exists p,
     let e := mkEvent "POLICY_ISSUED" (policy_id p) (policy_customerId p) (nowMs env) in
     let ops := [TxBegin; CreatePolicy p; UpdateQuoteStatus id ACCEPTED; TxCommit;
                 SqsPublish e; MetricInc "policies_issued_total"] in
     let wk := crash (run (firstn k ops) w) in
     acceptQuotePlan env (Some id) (committed w) = (Created201 p, ops) /\
     insideTx ops = [CreatePolicy p; UpdateQuoteStatus id ACCEPTED] /\
     ((k < 4)%nat -> committed wk = committed w /\ sqs wk = sqs w) /\
     (k = 4%nat -> committed wk = afterIssuance id p (committed w) /\ sqs wk = sqs w) /\
     ((5 <= k)%nat -> committed wk = afterIssuance id p (committed w) /\
                      sqs wk = sqs w ++ [e])) /\
  (forall f, txFailure env = Some f ->
   exists w', acceptQuote env (Some id) w = (ServerError500, w') /\
              committed w' = committed w /\ sqs w' = sqs w).
Proof.
  intros Hq Hst. split.
  - intros Hok. eexists. cbv zeta.
    split; [apply (acceptQuotePlan_pending env id (committed w) q Hq Hst Hok)|].
    split; [reflexivity|].
    do 6 (destruct k as [|k]; [cbn; repeat split; intros; try reflexivity; lia|]).
    rewrite firstn_all2 by (cbn; lia).
    cbn; repeat split; intros; try reflexivity; lia.
  - intros f Hf. unfold acceptQuote, acceptQuotePlan.
    rewrite Hq, Hst, Hf. cbn [isPENDING negb].
    destruct f; eexists; (split; [reflexivity|]); cbn; split; reflexivity.
Qed.

Lemma acceptQuote_publishes_after_commit_witness :
  exists p,
    acceptQuotePlan sampleEnv (Some 7%Z) (committed sampleWorld) =
      (Created201 p,
       [TxBegin; CreatePolicy p; UpdateQuoteStatus 7 ACCEPTED; TxCommit;
        SqsPublish (mkEvent "POLICY_ISSUED" (policy_id p) (policy_customerId p)
                            (nowMs sampleEnv));
        MetricInc "policies_issued_total"]).
Proof.
  destruct (acceptQuote_publishes_after_commit sampleEnv 7 sampleWorld sampleQuote 4
              sampleQuote_lookup eq_refl) as [H _].
  destruct (H eq_refl) as (p & Hplan & _).
  exists p. exact Hplan.
Defined.

(** C1, counterexample. Accepting the sample quote succeeds, yet nothing
    inside its transaction records the event; if the process stops right
    after the commit, the policy is issued and no event record exists. *)
Lemma outbox_row_counterexample :
  ~ eventRecordedInTransaction sampleEnv 7 sampleWorld /\
  exists p ops,
    acceptQuotePlan sampleEnv (Some 7%Z) (committed sampleWorld) = (Created201 p, ops) /\
    issued p (crash (run (firstn 4 ops) sampleWorld)) /\
    ~ eventOnRecord p (crash (run (firstn 4 ops) sampleWorld)).
Proof.
  pose proof (acceptQuotePlan_pending sampleEnv 7 (committed sampleWorld) sampleQuote
                sampleQuote_lookup eq_refl eq_refl) as Hplan.
  cbv zeta in Hplan. split.
  - intros H. destruct (H _ _ Hplan) as (o & Hin & Hrec).
    cbn in Hin. destruct Hin as [<- | [<- | []]]; discriminate Hrec.
  - eexists _, _. split; [exact Hplan|]. split.
    + unfold issued. cbn. apply lookup_insert_eq.
    + intros (e & Hin & _). cbn in Hin. exact Hin.
Qed.

(** C2. Accepting a quote that is not PENDING answers 409 Conflict (the
    InvalidStateTransition outcome) and changes nothing; of two accepts
    in a row of a PENDING quote the first succeeds and the second is a
    conflict; and whatever accepts are issued, no quote ever has two
    policies. *)
Theorem acceptQuote_conflict_single_policy
    (env1 env2 : Env) (id : Z) (w : World) (q : Quote)
    (calls : list (Env * option Z)) :
  quotes (committed w) !! id = Some q ->
  (quote_status q <> PENDING -> acceptQuote env1 (Some id) w = (Conflict409, w)) /\
  (quote_status q = PENDING -> txFailure env1 = None ->
   exists p w1,
     acceptQuote env1 (Some id) w = (Created201 p, w1) /\
     acceptQuote env2 (Some id) w1 = (Conflict409, w1)) /\
  (consistent (committed w) -> onePolicyPerQuote (committed (acceptAll calls w))).
Proof.
  intros Hq. split; [|split].
  - intros Hst. unfold acceptQuote.
    rewrite (acceptQuotePlan_not_pending env1 id _ q Hq Hst). reflexivity.
  - intros Hst Hok. unfold acceptQuote at 1.
    rewrite (acceptQuotePlan_pending env1 id _ q Hq Hst Hok). cbv zeta.
    eexists _, _. split; [reflexivity|].
    unfold acceptQuote.
    erewrite acceptQuotePlan_not_pending; [reflexivity | | ].
    + cbn. rewrite lookup_alter, decide_True by reflexivity.
      rewrite Hq. reflexivity.
    + cbn. discriminate.
  - intros Hc. apply (acceptAll_consistent calls) in Hc.
    destruct Hc as (_ & _ & Huniq). exact Huniq.
Qed.

Lemma acceptQuote_conflict_single_policy_witness :
  acceptQuote sampleEnv (Some 7%Z) acceptedWorld = (Conflict409, acceptedWorld) /\
  (exists p w1,
     acceptQuote sampleEnv (Some 7%Z) sampleWorld = (Created201 p, w1) /\
     acceptQuote sampleEnv (Some 7%Z) w1 = (Conflict409, w1)) /\
  onePolicyPerQuote
    (committed (acceptAll [(sampleEnv, Some 7%Z); (sampleEnv, Some 7%Z)] sampleWorld)).
Proof.
  split; [|split].
  - apply (acceptQuote_conflict_single_policy sampleEnv sampleEnv 7 acceptedWorld
             (withStatus ACCEPTED sampleQuote) []).
    + apply lookup_singleton_eq.
    + cbn. discriminate.
  - apply (acceptQuote_conflict_single_policy sampleEnv sampleEnv 7 sampleWorld
             sampleQuote []); [exact sampleQuote_lookup | reflexivity | reflexivity].
  - apply (acceptQuote_conflict_single_policy sampleEnv sampleEnv 7 sampleWorld
             sampleQuote [(sampleEnv, Some 7%Z); (sampleEnv, Some 7%Z)]);
      [exact sampleQuote_lookup | exact sampleDb_consistent].
Defined.

(** C5. Accepting a PENDING quote returns a Policy that is ACTIVE, starts
    today and ends on the same day and month termYears of the quote later;
    the policy is stored, the quote is stored with status ACCEPTED and is
    otherwise unchanged, and exactly one POLICY_ISSUED message for the
    policy is added to the queue. *)
Theorem acceptQuote_issues_active_policy
    (env : Env) (id : Z) (w : World) (q : Quote) :
  quotes (committed w) !! id = Some q -> quote_status q = PENDING ->
  txFailure env = None ->
  exists p w' e q',
    acceptQuote env (Some id) w = (Created201 p, w') /\
    policy_status p = ACTIVE /\
    quoteId p = quote_id q /\
    policy_customerId p = quote_customerId q /\
    startDate p = today env /\
    endDate p = addYears (startDate p) (termYears q) /\
    year (endDate p) = (year (startDate p) + termYears q)%Z /\
    month (endDate p) = month (startDate p) /\
    day (endDate p) = day (startDate p) /\
    issued p w' /\
    quotes (committed w') !! id = Some (withStatus ACCEPTED q) /\
    quotes (committed w') !! id = Some q' /\
    quote_status q' = ACCEPTED /\
    quote_id q' = quote_id q /\
    quote_customerId q' = quote_customerId q /\
    coverageAmount q' = coverageAmount q /\
    termYears q' = termYears q /\
    monthlyPremium q' = monthlyPremium q /\
    sqs w' = sqs w ++ [e] /\
    event_type e = "POLICY_ISSUED" /\
    event_policyId e = policy_id p /\
    event_customerId e = policy_customerId p /\
    issuedAt e = nowMs env /\
    policies_issued_total w' = S (policies_issued_total w).
Proof.
  intros Hq Hst Hok. unfold acceptQuote.
  rewrite (acceptQuotePlan_pending env id _ q Hq Hst Hok). cbv zeta.
  assert (Hstored :
    quotes (committed
      (run [TxBegin;
            CreatePolicy
              (mkPolicy (nextPolicyId (committed w))
                 ("LS-" +:+ pretty (nowMs env) +:+ "-" +:+ pretty (quote_id q))
                 (quote_customerId q) (quote_id q) (today env)
                 (addYears (today env) (termYears q)) ACTIVE);
            UpdateQuoteStatus id ACCEPTED; TxCommit;
            SqsPublish
              (policyIssued env
                 (mkPolicy (nextPolicyId (committed w))
                    ("LS-" +:+ pretty (nowMs env) +:+ "-" +:+ pretty (quote_id q))
                    (quote_customerId q) (quote_id q) (today env)
                    (addYears (today env) (termYears q)) ACTIVE));
            MetricInc "policies_issued_total"] w)) !! id
    = Some (mkQuote (quote_id q) (quote_customerId q) (coverageAmount q)
                    (termYears q) (monthlyPremium q) ACCEPTED)).
  { cbn. rewrite lookup_alter, decide_True by reflexivity. rewrite Hq. reflexivity. }
  eexists _, _, _, _. split; [reflexivity|].
  do 4 (split; [reflexivity|]).
  split; [reflexivity|].
  split; [reflexivity|]. split; [reflexivity|]. split; [reflexivity|].
  split; [unfold issued; cbn; apply lookup_insert_eq|].
  split; [exact Hstored|]. split; [exact Hstored|].
  do 6 (split; [reflexivity|]).
  cbn. repeat split; reflexivity.
Qed.

Lemma acceptQuote_issues_active_policy_witness :
  exists p w',
    acceptQuote sampleEnv (Some 7%Z) sampleWorld = (Created201 p, w') /\
    policy_status p = ACTIVE /\
    startDate p = mkDate 2025 12 1 /\
    endDate p = mkDate 2045 12 1 /\
    quotes (committed w') !! 7%Z
      = Some (mkQuote 7 42 10000000 20 (45833 # 100) ACCEPTED) /\
    sqs w' = [mkEvent "POLICY_ISSUED" (policy_id p) 42 1764583200000].
Proof.
  destruct (acceptQuote_issues_active_policy sampleEnv 7 sampleWorld sampleQuote
              sampleQuote_lookup eq_refl eq_refl)
    as (p & w' & e & q' & H1 & H2 & _ & Hc & Hs & _ & Hy & Hm & Hd & _ & _ & Hq'
        & Hst & Hi & Hcu & Hco & Ht & Hmp & Hsqs & He1 & He2 & He3 & He4 & _).
  exists p, w'. split; [exact H1|]. split; [exact H2|]. split; [exact Hs|].
  split.
  - rewrite Hs in Hy, Hm, Hd. destruct (endDate p) as [y m d].
    cbn in Hy, Hm, Hd. subst y m d. reflexivity.
  - split.
    + rewrite Hq'. f_equal. destruct q' as [a b c d e' f].
      cbn in Hst, Hi, Hcu, Hco, Ht, Hmp. subst. reflexivity.
    + rewrite Hsqs. cbn [sqs sampleWorld app]. f_equal.
      destruct e as [a b c d]. cbn in He1, He2, He3, He4. rewrite Hc in He3.
      cbn in He3. subst. reflexivity.
Defined.

(** The quote scenario of the design, end to end. *)
Example createQuote_scenario :
  fst (createQuote sampleEnv (mkQuoteRequest 42 10000000 20) sampleWorld)
    = Created201 (mkQuote 8 42 10000000 20 (45833 # 100) PENDING).
Proof. reflexivity. Qed.




End IssuanceFacts.

(* ===================================================================== *)
(** * Properties of the notification worker *)
(* ===================================================================== *)

Section WorkerFacts.

Import Worker.

Variable JSON_parse : string -> option Js.

Lemma notifications_logger (l : Level) (t : string) (m : list (string * Js)) (w : World) :
  notifications (logger l t m w) =
  (notifications w + if String.eqb t welcomeText then 1 else 0)%nat.
Proof.
  unfold notifications, logger; cbn [logs].
  rewrite List.filter_app, length_app. cbn [List.filter].
  unfold isNotification; cbn [text].
  destruct (String.eqb t welcomeText); reflexivity.
Qed.

(** What [processMessage] leaves untouched, and what it counts. *)
Lemma processMessage_deadLetters (w : World) (d : Delivery) :
  deadLetters (processMessage JSON_parse w d) = deadLetters w.
Proof.
  unfold processMessage, handleMessage, deleteMessage.
  destruct (JSON_parse (Body (message d))) as [body|]; [|reflexivity].
  destruct (getProp "type" body) as [ty|e]; [|reflexivity].
  destruct (isPolicyIssued ty), (deleteSucceeds d); reflexivity.
Qed.

Lemma processMessage_handled (w : World) (d : Delivery) :
  handled (processMessage JSON_parse w d) = S (handled w).
Proof.
  unfold processMessage, handleMessage, deleteMessage, handled.
  destruct (JSON_parse (Body (message d))) as [body|]; [|cbn; lia].
  destruct (getProp "type" body) as [ty|e]; [|cbn; lia].
  destruct (isPolicyIssued ty), (deleteSucceeds d); cbn; lia.
Qed.

Lemma batch_deadLetters (ds : list Delivery) (w : World) :
  deadLetters (fold_left (processMessage JSON_parse) ds w) = deadLetters w.
Proof.
  revert w. induction ds as [|d ds IH]; intros w; cbn [fold_left]; [reflexivity|].
  rewrite IH. apply processMessage_deadLetters.
Qed.

Lemma batch_handled (ds : list Delivery) (w : World) :
  handled (fold_left (processMessage JSON_parse) ds w) = (handled w + length ds)%nat.
Proof.
  revert w. induction ds as [|d ds IH]; intros w; cbn [fold_left length]; [lia|].
  rewrite IH, processMessage_handled. lia.
Qed.

Lemma pollIteration_batch (w : World) (ds : list Delivery) :
  pollIteration JSON_parse w (Received (Some ds)) =
  fold_left (processMessage JSON_parse) ds w.
Proof. destruct ds; reflexivity. Qed.

Lemma pollIteration_deadLetters (w : World) (r : Receive) :
  deadLetters (pollIteration JSON_parse w r) = deadLetters w.
Proof.
  destruct r as [|[ds|]]; [reflexivity | | reflexivity].
  rewrite pollIteration_batch. apply batch_deadLetters.
Qed.

Lemma poll_deadLetters (rs : list Receive) (w : World) :
  deadLetters (poll JSON_parse rs w) = deadLetters w.
Proof.
  unfold poll. revert w.
  induction rs as [|r rs IH]; intros w; cbn [fold_left]; [reflexivity|].
  rewrite IH. apply pollIteration_deadLetters.
Qed.

Lemma processMessage_notifies (w : World) (d : Delivery) :
  announcesIssue JSON_parse (message d) ->
  notifications (processMessage JSON_parse w d) = S (notifications w).
Proof.
  intros (body & ty & Hparse & Hty & Hissued).
  unfold processMessage, handleMessage. rewrite Hparse, Hty, Hissued.
  unfold deleteMessage, handlePolicyIssued.
  destruct (deleteSucceeds d).
  - change (notifications (incrementProcessed ?w')) with (notifications w').
    unfold notifications; cbn [logs logger].
    rewrite List.filter_app, length_app. cbn. lia.
  - unfold onMessageError.
    change (notifications (incrementFailed ?w')) with (notifications w').
    rewrite !notifications_logger. cbn. lia.
Qed.

Lemma batch_notifies (msg : Message) (ds : list Delivery) (w : World) :
  announcesIssue JSON_parse msg -> Forall (fun d => message d = msg) ds ->
  notifications (fold_left (processMessage JSON_parse) ds w) =
  (notifications w + length ds)%nat.
Proof.
  intros Hmsg Hall. revert w.
  induction Hall as [|d ds Hd _ IH]; intros w; cbn [fold_left length]; [lia|].
  rewrite IH, processMessage_notifies by (rewrite Hd; exact Hmsg). lia.
Qed.

Lemma deliveries_cons (r : Receive) (rs : list Receive) :
  deliveries (r :: rs) = deliveries [r] ++ deliveries rs.
Proof. unfold deliveries; cbn [flat_map]. rewrite app_nil_r. reflexivity. Qed.

Lemma pollIteration_notifies (msg : Message) (r : Receive) (w : World) :
  announcesIssue JSON_parse msg ->
  Forall (fun d => message d = msg) (deliveries [r]) ->
  notifications (pollIteration JSON_parse w r) =
  (notifications w + length (deliveries [r]))%nat.
Proof.
  intros Hmsg Hall. destruct r as [|[ds|]].
  - cbn [pollIteration]. rewrite notifications_logger. cbn. lia.
  - rewrite pollIteration_batch. cbn [deliveries flat_map] in *.
    rewrite app_nil_r in *. apply (batch_notifies msg); assumption.
  - cbn. lia.
Qed.

(** Every delivery of every turn is finished with, one way or the other. *)
Lemma poll_handled (rs : list Receive) (w : World) :
  handled (poll JSON_parse rs w) = (handled w + length (deliveries rs))%nat.
Proof.
  unfold poll. revert w.
  induction rs as [|r rs IH]; intros w; cbn [fold_left].
  - cbn. lia.
  - rewrite IH, (deliveries_cons r rs), length_app.
    destruct r as [|[ds|]].
    + unfold handled; cbn. lia.
    + rewrite pollIteration_batch, batch_handled.
      unfold deliveries; cbn [flat_map]. rewrite app_nil_r. lia.
    + unfold handled; cbn. lia.
Qed.

(** Deleting removes the delivered message from the queue. *)
Lemma deleteMessage_removes (d : Delivery) (w w' : World) :
  deleteMessage d w = Normal w' -> ~ held (message d) w'.
Proof.
  unfold deleteMessage, held. destruct (deleteSucceeds d); [|discriminate].
  intros [= <-]. cbn [queue]. rewrite <- list_elem_of_In, list_elem_of_filter.
  intros [Hne _]. apply Hne. reflexivity.
Qed.

(** C3, as the code has it. The worker keeps no record of what it has
    processed: every delivery of a POLICY_ISSUED message performs the
    notification again, so the same message delivered n times (twice, for
    one) leaves n notifications; a delivery whose delete is accepted also
    removes the message from the queue and counts as processed. *)
Theorem every_delivery_notifies
    (msg : Message) (rs : list Receive) (d : Delivery) (w : World) :
  announcesIssue JSON_parse msg ->
  Forall (fun d => message d = msg) (deliveries rs) ->
  notifications (poll JSON_parse rs w) = (notifications w + length (deliveries rs))%nat /\
  (message d = msg ->
   notifications (poll JSON_parse [Received (Some [d]); Received (Some [d])] w)
     = S (S (notifications w))) /\
  (message d = msg -> deleteSucceeds d = true ->
   ~ held msg (processMessage JSON_parse w d) /\
   processed (processMessage JSON_parse w d) = S (processed w)).
Proof.
  intros Hmsg Hall. split; [|split].
  - unfold poll. revert w.
    induction rs as [|r rs IH]; intros w; cbn [fold_left].
    + cbn. lia.
    + rewrite deliveries_cons in Hall. apply Forall_app in Hall as [Hr Hrs].
      rewrite (IH Hrs), (pollIteration_notifies msg r w Hmsg Hr).
      rewrite (deliveries_cons r rs), length_app. lia.
  - intros Hd. unfold poll; cbn [fold_left pollIteration].
    rewrite !processMessage_notifies by (rewrite Hd; exact Hmsg). reflexivity.
  - intros Hd Hdel. destruct Hmsg as (body & ty & Hparse & Hty & Hissued).
    unfold processMessage, handleMessage.
    rewrite Hd, Hparse, Hty, Hissued.
    destruct (deleteMessage d (handlePolicyIssued body w)) as [w2|e] eqn:Hdm.
    + split.
      * apply deleteMessage_removes in Hdm. rewrite Hd in Hdm. exact Hdm.
      * unfold deleteMessage in Hdm. rewrite Hdel in Hdm.
        injection Hdm as <-. reflexivity.
    + unfold deleteMessage in Hdm. rewrite Hdel in Hdm. discriminate.
Qed.

(** C8, as the code has it. A message whose processing fails, by a parse
    failure as by any other error, is not deleted: it is logged and
    counted as failed, the worker sends nothing to a dead-letter queue,
    and the batch goes on with the messages after it; a message leaves the
    queue only after its handler has completed and the delete call has
    been accepted. *)
Theorem failed_message_stays_queued
    (d : Delivery) (ds : list Delivery) (rs : list Receive) (w : World) :
  processingFails JSON_parse d w ->
  queue (processMessage JSON_parse w d) = queue w /\
  failed (processMessage JSON_parse w d) = S (failed w) /\
  processed (processMessage JSON_parse w d) = processed w /\
  (JSON_parse (Body (message d)) = None ->
   processMessage JSON_parse w d = onMessageError SyntaxError (message d) w) /\
  (forall e, handleMessage JSON_parse (message d) w = Throw e ->
     logs (processMessage JSON_parse w d)
       = logs w ++ [mkLog error "Error processing SQS message"
                          [("err", JStr (errorName e)); ("msg", messageJs (message d))]]) /\
  (forall w1, handleMessage JSON_parse (message d) w = Normal w1 ->
     logs (processMessage JSON_parse w d)
       = logs w1 ++ [mkLog error "Error processing SQS message"
                           [("err", JStr (errorName SqsError));
                            ("msg", messageJs (message d))]]) /\
  (exists e before,
     logs (processMessage JSON_parse w d)
       = before ++ [mkLog error "Error processing SQS message"
                          [("err", JStr (errorName e)); ("msg", messageJs (message d))]]) /\
  handled (fold_left (processMessage JSON_parse) (d :: ds) w)
    = (handled w + S (length ds))%nat /\
  handled (poll JSON_parse rs w) = (handled w + length (deliveries rs))%nat /\
  deadLetters (poll JSON_parse rs w) = deadLetters w /\
  (forall d' w0,
     queue (processMessage JSON_parse w0 d') <> queue w0 ->
     exists w1, handleMessage JSON_parse (message d') w0 = Normal w1 /\
                deleteSucceeds d' = true).
Proof.
  intros Hfail.
  assert (Hkept : queue (processMessage JSON_parse w d) = queue w /\
                  failed (processMessage JSON_parse w d) = S (failed w) /\
                  processed (processMessage JSON_parse w d) = processed w).
  { unfold processMessage. destruct Hfail as [[e He] | Hdel].
    - rewrite He. cbn. repeat split; reflexivity.
    - unfold deleteMessage. rewrite Hdel.
      destruct (handleMessage JSON_parse (message d) w) as [w1|e] eqn:Hh.
      + unfold handleMessage in Hh.
        destruct (JSON_parse (Body (message d))) as [body|]; [|discriminate].
        destruct (getProp "type" body) as [ty|]; [|discriminate].
        destruct (isPolicyIssued ty); injection Hh as <-; cbn; repeat split; reflexivity.
      + cbn. repeat split; reflexivity. }
  destruct Hkept as (Hq & Hf & Hp).
  repeat (split; [assumption|]).
  assert (Hthrow : forall e, handleMessage JSON_parse (message d) w = Throw e ->
            logs (processMessage JSON_parse w d)
              = logs w ++ [mkLog error "Error processing SQS message"
                                 [("err", JStr (errorName e));
                                  ("msg", messageJs (message d))]]).
  { intros e He. unfold processMessage. rewrite He. reflexivity. }
  assert (Hrejected : forall w1, handleMessage JSON_parse (message d) w = Normal w1 ->
            logs (processMessage JSON_parse w d)
              = logs w1 ++ [mkLog error "Error processing SQS message"
                                  [("err", JStr (errorName SqsError));
                                   ("msg", messageJs (message d))]]).
  { intros w1 Hw1. destruct Hfail as [[e He] | Hdel]; [congruence|].
    unfold processMessage, deleteMessage. rewrite Hw1, Hdel. reflexivity. }
  split; [|split; [|split; [|split; [|split; [|split; [|split]]]]]].
  - intros Hparse. unfold processMessage, handleMessage. rewrite Hparse. reflexivity.
  - exact Hthrow.
  - exact Hrejected.
  - destruct (handleMessage JSON_parse (message d) w) as [w1|e] eqn:Hh.
    + exists SqsError, (logs w1). apply Hrejected. reflexivity.
    + exists e, (logs w). apply Hthrow. reflexivity.
  - rewrite batch_handled. cbn [length]. lia.
  - apply poll_handled.
  - apply poll_deadLetters.
  - intros d' w0 Hchanged. unfold processMessage in Hchanged.
    destruct (handleMessage JSON_parse (message d') w0) as [w1|e] eqn:Hh.
    + exists w1. split; [reflexivity|].
      destruct (deleteSucceeds d') eqn:Hdel; [reflexivity|].
      exfalso. apply Hchanged. unfold deleteMessage. rewrite Hdel.
      unfold handleMessage in Hh.
      destruct (JSON_parse (Body (message d'))) as [body|]; [|discriminate].
      destruct (getProp "type" body) as [ty|]; [|discriminate].
      destruct (isPolicyIssued ty); injection Hh as <-; reflexivity.
    + exfalso. apply Hchanged. reflexivity.
Qed.

End WorkerFacts.

Section WorkerSamples.

Import Worker.

Lemma issuedMessage_announces : announcesIssue sampleParse issuedMessage.
Proof. exists issuedJs, (JStr "POLICY_ISSUED"). repeat split; reflexivity. Defined.

Lemma every_delivery_notifies_witness :
  notifications
    (poll sampleParse
          [Received (Some [mkDelivery issuedMessage false]);
           Received (Some [mkDelivery issuedMessage true])] sampleWorld) = 2%nat.
Proof.
  destruct (every_delivery_notifies sampleParse issuedMessage
              [Received (Some [mkDelivery issuedMessage false]);
               Received (Some [mkDelivery issuedMessage true])]
              (mkDelivery issuedMessage true) sampleWorld) as [H _].
  - exact issuedMessage_announces.
  - repeat constructor.
  - exact H.
Defined.

(** C3, counterexample. The same POLICY_ISSUED message delivered twice:
    two notifications, not one. *)
Lemma duplicate_delivery_counterexample :
  notifications
    (poll sampleParse
          [Received (Some [mkDelivery issuedMessage true]);
           Received (Some [mkDelivery issuedMessage true])] sampleWorld) = 2%nat /\
  notifications sampleWorld = 0%nat.
Proof. split; reflexivity. Qed.

Lemma failed_message_stays_queued_witness :
  queue (processMessage sampleParse sampleWorld (mkDelivery malformedMessage true))
    = queue sampleWorld /\
  failed (processMessage sampleParse sampleWorld (mkDelivery malformedMessage true))
    = 1%nat /\
  logs (processMessage sampleParse sampleWorld (mkDelivery malformedMessage true))
    = [mkLog error "Error processing SQS message"
             [("err", JStr "SyntaxError"); ("msg", messageJs malformedMessage)]] /\
  logs (processMessage sampleParse sampleWorld (mkDelivery issuedMessage false))
    = [mkLog info welcomeText [("policyId", JNum 42); ("customerId", JNum 10)];
       mkLog error "Error processing SQS message"
             [("err", JStr "SqsError"); ("msg", messageJs issuedMessage)]].
Proof.
  destruct (failed_message_stays_queued sampleParse (mkDelivery malformedMessage true)
              [mkDelivery issuedMessage true] [] sampleWorld)
    as (Hq & Hf & _ & _ & Hlog & _).
  { left. exists SyntaxError. reflexivity. }
  destruct (failed_message_stays_queued sampleParse (mkDelivery issuedMessage false)
              [] [] sampleWorld)
    as (_ & _ & _ & _ & _ & Hlog' & _).
  { right. reflexivity. }
  split; [exact Hq|]. split; [exact Hf|]. split.
  - apply (Hlog SyntaxError). reflexivity.
  - apply (Hlog' (handlePolicyIssued issuedJs sampleWorld)). reflexivity.
Defined.

(** C8, counterexample. A batch of a malformed message followed by a good
    one: the malformed message is counted as failed and is still in the
    queue, and nothing has reached the dead-letter queue. *)
Lemma malformed_not_dead_lettered_counterexample :
  sampleParse (Body malformedMessage) = None /\
  deadLetters
    (poll sampleParse
          [Received (Some [mkDelivery malformedMessage true;
                           mkDelivery issuedMessage true])] sampleWorld) = [] /\
  queue
    (poll sampleParse
          [Received (Some [mkDelivery malformedMessage true;
                           mkDelivery issuedMessage true])] sampleWorld)
    = [malformedMessage; nullMessage] /\
  failed
    (poll sampleParse
          [Received (Some [mkDelivery malformedMessage true;
                           mkDelivery issuedMessage true])] sampleWorld) = 1%nat /\
  processed
    (poll sampleParse
          [Received (Some [mkDelivery malformedMessage true;
                           mkDelivery issuedMessage true])] sampleWorld) = 1%nat.
Proof. repeat split; reflexivity. Qed.

(** A message of a type the worker does not know is logged, deleted and
    counted as processed. *)
Example unknown_type_is_deleted :
  let w := processMessage sampleParse
             (mkWorld [mkMessage "m-4" "rh-4" otherBody] [] [] 0 0)
             (mkDelivery (mkMessage "m-4" "rh-4" otherBody) true) in
  queue w = [] /\ processed w = 1%nat /\ failed w = 0%nat /\ notifications w = 0%nat.
Proof. repeat split; reflexivity. Qed.

(** A body that parses to null fails at [body.type] and stays queued. *)
Example null_body_fails :
  let w := processMessage sampleParse sampleWorld (mkDelivery nullMessage true) in
  queue w = queue sampleWorld /\ processed w = 0%nat /\ failed w = 1%nat.
Proof. repeat split; reflexivity. Qed.

End WorkerSamples.

(* ===================================================================== *)
(** * Properties of the API middleware *)
(* ===================================================================== *)

Section ApiFacts.

Import Api.

(** The id chosen by the source's [existing || uuidv4()] is the one the
    specification describes. *)
Lemma chosen_id_is_spec (req : Request) (res : Response) (u : Uuids) :
  requestId (fst (fst (fst (requestIdMiddleware req res u)))) = Some (spec_requestId req u).
Proof.
  unfold requestIdMiddleware, spec_requestId.
  destruct (headers req !! "x-request-id") as [s|]; [|reflexivity].
  cbn [truthy]. destruct s as [|a s]; reflexivity.
Qed.

(** The middleware on its own, for a request that reaches it: it stores
    one and the same id in [req.requestId] and in the X-Request-Id
    response header, then calls [next]: the incoming x-request-id header
    when it is present and non-empty, in which case no UUID is drawn,
    and otherwise a freshly drawn UUID.  Which requests reach it is
    settled in the section on the application below. *)
Lemma requestIdMiddleware_sets_same_id (req : Request) (res : Response) (u : Uuids) :
  exists id u',
    requestIdMiddleware req res u =
      (mkRequest (headers req) (Some id), setHeader "X-Request-Id" id res, u', Next) /\
    responseHeaders (setHeader "X-Request-Id" id res) !! "X-Request-Id" = Some id /\
    id = spec_requestId req u /\
    (forall s, headers req !! "x-request-id" = Some s -> s <> EmptyString ->
               id = s /\ u' = u) /\
    (headers req !! "x-request-id" = None \/
     headers req !! "x-request-id" = Some EmptyString ->
     id = uuidAt u (issued u) /\ issued u' = S (issued u)).
Proof.
  unfold requestIdMiddleware, spec_requestId.
  destruct (headers req !! "x-request-id") as [s|] eqn:Hh.
  - destruct s as [|a s].
    + cbn. eexists _, _. split; [reflexivity|].
      split; [apply lookup_insert_eq|]. split; [reflexivity|].
      split; [intros s [= <-] Hne; congruence|]. intros _. split; reflexivity.
    + cbn. eexists _, _. split; [reflexivity|].
      split; [apply lookup_insert_eq|]. split; [reflexivity|].
      split; [intros s' [= <-] _; split; reflexivity|].
      intros [Hn | Hn]; discriminate Hn.
  - cbn. eexists _, _. split; [reflexivity|].
    split; [apply lookup_insert_eq|]. split; [reflexivity|].
    split; [intros s Hs; discriminate Hs|]. intros _. split; reflexivity.
Qed.

Example requestId_echoed :
  requestIdMiddleware requestWithId blankResponse sampleUuids =
    (mkRequest (headers requestWithId) (Some "client-7"),
     setHeader "X-Request-Id" "client-7" blankResponse, sampleUuids, Next).
Proof. reflexivity. Qed.

Example requestId_generated :
  requestIdMiddleware requestWithoutId blankResponse sampleUuids =
    (mkRequest (headers requestWithoutId) (Some (uuidAt sampleUuids 0)),
     setHeader "X-Request-Id" (uuidAt sampleUuids 0) blankResponse,
     mkUuids 1 (uuidAt sampleUuids), Next).
Proof. reflexivity. Qed.

Example requestId_empty_header_replaced :
  requestId (fst (fst (fst (requestIdMiddleware requestWithEmptyId blankResponse sampleUuids))))
    = Some (uuidAt sampleUuids 0).
Proof. reflexivity. Qed.

(** C10. Whatever error reaches the handler, the response has status 500
    and the body {errorCode: INTERNAL_ERROR, message: Unexpected server
    error}; the error's message and stack go to the log and to the log
    only: the response is the same for every error. *)
Theorem errorHandler_fixed_500 (err err' : Thrown) (req : Request) (res : Response)
    (log : list LogEntry) :
  let '(res', log', ctl) := errorHandler err req res log in
  statusCode res' = 500%Z /\
  body res' = Some (JObj [("errorCode", JStr "INTERNAL_ERROR");
                          ("message", JStr "Unexpected server error")]) /\
  responseHeaders res' = responseHeaders res /\
  ctl = Done /\
  log' = log ++ [mkLog error "Unhandled error"
                       [("error", message err); ("stack", stack err);
                        ("requestId", headerJs (requestId req))]] /\
  fst (fst (errorHandler err' req res log)) = res'.
Proof. cbn. repeat split; reflexivity. Qed.

End ApiFacts.

(* ===================================================================== *)
(** * Further properties of the pricing function *)
(* ===================================================================== *)

Section PricingRange.

Import Pricing Brackets.
Local Open Scope Q_scope.











(** X4. Within a bracket the age does not matter: two profiles that differ
    only by ages of the same bracket get the same premium; the brackets
    change right after 30, 40 and 50. *)
Theorem calculatePremium_by_bracket (a a' : Z) (s : bool) (o : OccupationRisk)
    (cov : Q) (t : Z) :
  ageBracket a = ageBracket a' ->
  calculatePremium (mkRisk a s o) cov t = calculatePremium (mkRisk a' s o) cov t.
Proof.
  unfold ageBracket, calculatePremium; cbn [age smoker occupationRisk].
  destruct (a >? 50)%Z, (a >? 40)%Z, (a >? 30)%Z,
    (a' >? 50)%Z, (a' >? 40)%Z, (a' >? 30)%Z;
    intros H; try discriminate H; reflexivity.
Qed.

Lemma calculatePremium_by_bracket_witness :
  calculatePremium (mkRisk 31 true HIGH) 10000000 20
    = calculatePremium (mkRisk 40 true HIGH) 10000000 20 /\
  ageBracket 30 <> ageBracket 31 /\ ageBracket 40 <> ageBracket 41 /\
  ageBracket 50 <> ageBracket 51.
Proof.
  split.
  - apply (calculatePremium_by_bracket 31 40 true HIGH 10000000 20). reflexivity.
  - repeat split; discriminate.
Defined.

End PricingRange.

(* ===================================================================== *)
(** * Further properties of quote creation and acceptance *)
(* ===================================================================== *)

Section PolicyRoutesFacts.

Import Issuance PolicyRoutes.

(** ** What each route does to the world *)

Lemma createQuote_cases (env : Env) (r : QuoteRequest) (w : World) :
  (createQuote env r w = (BadRequest400, w) /\ validQuoteRequest r = false) \/
  (createQuote env r w = (NotFound404, w) /\ validQuoteRequest r = true /\
   customers env !! req_customerId r = None) \/
  (exists c,
     validQuoteRequest r = true /\ customers env !! req_customerId r = Some c /\
     let quote := mkQuote (nextQuoteId (committed w)) (req_customerId r)
                          (req_coverageAmount r) (req_termYears r)
                          (Pricing.calculatePremium c (req_coverageAmount r)
                                                    (req_termYears r)) PENDING in
     createQuote env r w =
       (Created201 quote,
        metricInc "quotes_created_total" (write (insertQuote quote) w))).
Proof.
  unfold createQuote, createQuotePlan.
  destruct (validQuoteRequest r); cbn [negb]; [|left; split; reflexivity].
  destruct (customers env !! req_customerId r) as [c|]; right.
  - right. exists c. repeat split; reflexivity.
  - left. repeat split; reflexivity.
Qed.

Lemma acceptQuote_cases (env : Env) (idParam : option Z) (w : World) :
  (exists resp, acceptQuote env idParam w = (resp, w) /\
                (forall p, resp <> Created201 p)) \/
  (exists id q f,
     idParam = Some id /\ quotes (committed w) !! id = Some q /\
     quote_status q = PENDING /\ txFailure env = Some f /\
     acceptQuote env idParam w =
       (ServerError500,
        mkWorld (committed w) None (sqs w) (quotes_created_total w)
                (policies_issued_total w))) \/
  (exists id q,
     idParam = Some id /\ quotes (committed w) !! id = Some q /\
     quote_status q = PENDING /\ txFailure env = None /\
     let p := mkPolicy (nextPolicyId (committed w))
                ("LS-" +:+ pretty (nowMs env) +:+ "-" +:+ pretty (quote_id q))
                (quote_customerId q) (quote_id q) (today env)
                (addYears (today env) (termYears q)) ACTIVE in
     acceptQuote env idParam w =
       (Created201 p,
        mkWorld (afterIssuance id p (committed w)) None
                (sqs w ++ [policyIssued env p]) (quotes_created_total w)
                (S (policies_issued_total w)))).
Proof.
  unfold acceptQuote, acceptQuotePlan.
  destruct idParam as [id|]; [|left; eexists; split; [reflexivity|discriminate]].
  destruct (quotes (committed w) !! id) as [q|] eqn:Hq;
    [|left; eexists; split; [reflexivity|discriminate]].
  destruct (quote_status q) eqn:Hst; cbn [isPENDING negb];
    try (left; eexists; split; [reflexivity|discriminate]).
  right. destruct (txFailure env) as [f|] eqn:Hf.
  - left. exists id, q, f. repeat split; try assumption.
    destruct f; reflexivity.
  - right. exists id, q. repeat split; try assumption.
Qed.

Lemma created_world (w : World) (quote : Quote) :
  inTx w = None ->
  metricInc "quotes_created_total" (write (insertQuote quote) w) =
  mkWorld (insertQuote quote (committed w)) None (sqs w)
          (S (quotes_created_total w)) (policies_issued_total w).
Proof. intros Htx. unfold write. rewrite Htx. reflexivity. Qed.

Lemma sameButStatus_refl (q : Quote) : sameButStatus q q.
Proof. repeat split. Qed.

Lemma sameButStatus_trans (q1 q2 q3 : Quote) :
  sameButStatus q1 q2 -> sameButStatus q2 q3 -> sameButStatus q1 q3.
Proof.
  intros (A1 & A2 & A3 & A4 & A5) (B1 & B2 & B3 & B4 & B5).
  repeat split; congruence.
Qed.

Lemma statusStep_trans (s1 s2 s3 : QuoteStatus) :
  statusStep s1 s2 -> statusStep s2 s3 -> statusStep s1 s3.
Proof.
  intros [-> | [-> ->]] [-> | [H ->]]; unfold statusStep; auto; discriminate.
Qed.

Lemma evolves_refl (w : World) : evolves w w.
Proof.
  unfold evolves. split; [|repeat split; auto].
  intros j q Hq. exists q. split; [exact Hq|].
  split; [apply sameButStatus_refl | left; reflexivity].
Qed.

Lemma evolves_trans (w1 w2 w3 : World) :
  evolves w1 w2 -> evolves w2 w3 -> evolves w1 w3.
Proof.
  intros (Q1 & P1 & A1 & B1 & C1) (Q2 & P2 & A2 & B2 & C2).
  unfold evolves. split; [|split; [|repeat split; lia]].
  - intros j q Hq. destruct (Q1 j q Hq) as (q' & Hq' & Hs & Ht).
    destruct (Q2 j q' Hq') as (q'' & Hq'' & Hs' & Ht').
    exists q''. split; [exact Hq''|].
    split; [eapply sameButStatus_trans | eapply statusStep_trans]; eassumption.
  - intros i p Hp. apply P2, P1, Hp.
Qed.

(** ** One request *)

Lemma createQuote_step (env : Env) (r : QuoteRequest) (w : World) :
  inTx w = None -> wellFormed (committed w) ->
  inTx (snd (createQuote env r w)) = None /\
  wellFormed (committed (snd (createQuote env r w))) /\
  evolves w (snd (createQuote env r w)).
Proof.
  intros Htx Hwf.
  destruct (createQuote_cases env r w) as [[-> _] | [[-> _] | (c & _ & _ & Hc)]];
    try (cbn [snd]; split; [exact Htx | split; [exact Hwf | apply evolves_refl]]).
  cbv zeta in Hc. rewrite Hc, created_world by exact Htx. cbn [snd inTx committed].
  set (quote := mkQuote _ _ _ _ _ _).
  destruct Hwf as ((Hkey & Hpend & Huniq) & (Hqlt & Hplt) & Href).
  assert (Hfresh : quotes (committed w) !! nextQuoteId (committed w) = None).
  { destruct (quotes (committed w) !! nextQuoteId (committed w)) as [q0|] eqn:E;
      [|reflexivity]. apply Hqlt in E. lia. }
  split; [reflexivity|]. split.
  - unfold wellFormed, consistent, idsBelowCounters, policiesReferToQuotes,
      onePolicyPerQuote, insertQuote; cbn.
    split; [split; [|split]|split; [split|]].
    + intros i q. rewrite lookup_insert. case_decide as Hi.
      * intros [= <-]. exact Hi.
      * apply Hkey.
    + intros i p q Hp. rewrite lookup_insert. case_decide as Hi.
      * destruct (Href i p Hp) as [_ [q0 Hq0]]. rewrite <- Hi in Hq0.
        rewrite Hfresh in Hq0. discriminate.
      * apply (Hpend i p q Hp).
    + exact Huniq.
    + intros i q. rewrite lookup_insert. case_decide as Hi.
      * intros _. lia.
      * intros Hq. apply Hqlt in Hq. lia.
    + exact Hplt.
    + intros i p Hp. destruct (Href i p Hp) as [Hid [q0 Hq0]].
      split; [exact Hid|]. rewrite lookup_insert. case_decide; eauto.
  - unfold evolves, insertQuote; cbn. split; [|split; [auto|]].
    + intros j q Hq. exists q. rewrite lookup_insert_ne.
      * split; [exact Hq|]. split; [apply sameButStatus_refl | left; reflexivity].
      * intros <-. rewrite Hfresh in Hq. discriminate.
    + rewrite map_size_insert_None by exact Hfresh. repeat split; lia.
Qed.

Lemma acceptQuote_step (env : Env) (idParam : option Z) (w : World) :
  inTx w = None -> wellFormed (committed w) ->
  inTx (snd (acceptQuote env idParam w)) = None /\
  wellFormed (committed (snd (acceptQuote env idParam w))) /\
  evolves w (snd (acceptQuote env idParam w)).
Proof.
  intros Htx Hwf.
  destruct (acceptQuote_cases env idParam w)
    as [(resp & -> & _) | [(id & q & f & _ & _ & _ & _ & ->) | (id & q & _ & Hq & Hst & _ & Hc)]].
  - cbn [snd]. split; [exact Htx | split; [exact Hwf | apply evolves_refl]].
  - cbn [snd inTx committed]. split; [reflexivity | split; [exact Hwf|]].
    unfold evolves; cbn. split; [|repeat split; auto].
    intros j q0 Hq0. exists q0. split; [exact Hq0|].
    split; [apply sameButStatus_refl | left; reflexivity].
  - cbv zeta in Hc. rewrite Hc. cbn [snd inTx committed].
    set (p := mkPolicy _ _ _ _ _ _ _).
    destruct Hwf as (Hcons & (Hqlt & Hplt) & Href).
    assert (Hfresh : policies (committed w) !! nextPolicyId (committed w) = None).
    { destruct (policies (committed w) !! nextPolicyId (committed w)) as [p0|] eqn:E;
        [|reflexivity]. apply Hplt in E. lia. }
    split; [reflexivity|]. split; [split; [|split]|].
    + apply (afterIssuance_consistent id q p); [exact Hcons | exact Hq | exact Hst | reflexivity].
    + unfold idsBelowCounters, afterIssuance, updateQuoteStatus, insertPolicy; cbn. split.
      * intros i q0. rewrite lookup_alter. case_decide as Hi.
        -- subst i. rewrite Hq. intros _. apply (Hqlt id q Hq).
        -- apply Hqlt.
      * intros i p0. rewrite lookup_insert. case_decide as Hi.
        -- intros _. lia.
        -- intros Hp0. apply Hplt in Hp0. lia.
    + unfold policiesReferToQuotes, afterIssuance, updateQuoteStatus, insertPolicy; cbn.
      intros i p0. rewrite lookup_insert. case_decide as Hi.
      * intros [= <-]. split; [exact Hi|]. cbn.
        destruct Hcons as (Hkey & _). rewrite (Hkey id q Hq).
        rewrite lookup_alter_eq, Hq. cbn. eauto.
      * intros Hp0. destruct (Href i p0 Hp0) as [Hid [q0 Hq0]].
        split; [exact Hid|]. rewrite lookup_alter. case_decide.
        -- subst. rewrite Hq. cbn. eauto.
        -- eauto.
    + unfold evolves, afterIssuance, updateQuoteStatus, insertPolicy; cbn.
      split; [|split].
      * intros j q0 Hq0. rewrite lookup_alter. case_decide as Hj.
        -- subst j. rewrite Hq0. cbn. eexists. split; [reflexivity|].
           split; [repeat split|]. right. rewrite Hq in Hq0.
           injection Hq0 as <-. split; [exact Hst | reflexivity].
        -- exists q0. split; [exact Hq0|].
           split; [apply sameButStatus_refl | left; reflexivity].
      * intros i p0 Hp0. rewrite lookup_insert_ne; [exact Hp0|].
        intros <-. rewrite Hfresh in Hp0. discriminate.
      * rewrite map_size_insert_None by exact Hfresh.
        rewrite (alter_alt_Some _ _ _ _ Hq), map_size_insert_Some by eauto.
        rewrite length_app. cbn. repeat split; lia.
Qed.

Lemma serve_step (c : Env * Call) (w : World) :
  inTx w = None -> wellFormed (committed w) ->
  inTx (serve w c) = None /\ wellFormed (committed (serve w c)) /\ evolves w (serve w c).
Proof.
  destruct c as [env [r | idParam]]; cbn [serve].
  - apply createQuote_step.
  - apply acceptQuote_step.
Qed.

Lemma serveAll_steps (calls : list (Env * Call)) (w : World) :
  inTx w = None -> wellFormed (committed w) ->
  inTx (serveAll calls w) = None /\ wellFormed (committed (serveAll calls w)) /\
  evolves w (serveAll calls w).
Proof.
  unfold serveAll. revert w.
  induction calls as [|c calls IH]; intros w Htx Hwf; cbn [fold_left].
  - split; [exact Htx | split; [exact Hwf | apply evolves_refl]].
  - destruct (serve_step c w Htx Hwf) as (Htx1 & Hwf1 & Hev1).
    destruct (IH _ Htx1 Hwf1) as (Htx2 & Hwf2 & Hev2).
    split; [exact Htx2 | split; [exact Hwf2 | eapply evolves_trans; eassumption]].
Qed.

Lemma sampleWorld_wellFormed : wellFormed (committed sampleWorld).
Proof.
  split; [exact sampleDb_consistent|].
  unfold idsBelowCounters, policiesReferToQuotes, sampleWorld, sampleDb;
    cbn [committed quotes policies nextQuoteId nextPolicyId]. split; [split|].
  - intros i q [<- _]%lookup_singleton_Some. lia.
  - intros i p Hp. rewrite lookup_empty in Hp. discriminate.
  - intros i p Hp. rewrite lookup_empty in Hp. discriminate.
Defined.

Lemma emptyWorld_wellFormed : wellFormed (committed emptyWorld).
Proof.
  unfold wellFormed, consistent, onePolicyPerQuote, idsBelowCounters,
    policiesReferToQuotes, emptyWorld, emptyDb;
    cbn [committed quotes policies nextQuoteId nextPolicyId].
  repeat split; intros;
    match goal with
    | H : ∅ !! _ = Some _ |- _ => rewrite lookup_empty in H; discriminate H
    end.
Defined.



(** X6. A request that is refused, and an acceptance whose transaction
    hits a database error, change nothing: not the database, not the
    queue, not the counters.  The refusals are the invalid body (400)
    and the unknown customer (404) of POST /quotes, and the non-integer
    id (400), the unknown quote (404) and the quote that is not PENDING
    (409) of POST /quotes/:id/accept; the database error inside the
    transaction is rolled back and answered 500. *)
Theorem refused_request_changes_nothing
    (env : Env) (r : QuoteRequest) (idParam : option Z) (w : World) :
  inTx w = None ->
  (validQuoteRequest r = false -> createQuote env r w = (BadRequest400, w)) /\
  (validQuoteRequest r = true -> customers env !! req_customerId r = None ->
   createQuote env r w = (NotFound404, w)) /\
  (idParam = None -> acceptQuote env idParam w = (BadRequest400, w)) /\
  (forall id, idParam = Some id -> quotes (committed w) !! id = None ->
   acceptQuote env idParam w = (NotFound404, w)) /\
  (forall id q, idParam = Some id -> quotes (committed w) !! id = Some q ->
   quote_status q <> PENDING -> acceptQuote env idParam w = (Conflict409, w)) /\
  (forall id q f, idParam = Some id -> quotes (committed w) !! id = Some q ->
   quote_status q = PENDING -> txFailure env = Some f ->
   acceptQuote env idParam w = (ServerError500, w)).
Proof.
  intros Htx. split; [|split; [|split; [|split; [|split]]]].
  - intros Hv. unfold createQuote, createQuotePlan. rewrite Hv. reflexivity.
  - intros Hv Hc. unfold createQuote, createQuotePlan. rewrite Hv, Hc. reflexivity.
  - intros ->. reflexivity.
  - intros id -> Hq. unfold acceptQuote, acceptQuotePlan. rewrite Hq. reflexivity.
  - intros id q -> Hq Hst. unfold acceptQuote.
    rewrite (acceptQuotePlan_not_pending env id (committed w) q Hq Hst). reflexivity.
  - intros id q f -> Hq Hst Hf. unfold acceptQuote, acceptQuotePlan.
    rewrite Hq, Hst, Hf. cbn [isPENDING negb].
    destruct w as [d tx s qc pc]; cbn in Htx; subst tx.
    destruct f; reflexivity.
Qed.

Lemma refused_request_changes_nothing_witness :
  createQuote sampleEnv (mkQuoteRequest 42 0 10) sampleWorld = (BadRequest400, sampleWorld) /\
  createQuote sampleEnv (mkQuoteRequest 99 5000000 10) sampleWorld
    = (NotFound404, sampleWorld) /\
  acceptQuote sampleEnv None sampleWorld = (BadRequest400, sampleWorld) /\
  acceptQuote sampleEnv (Some 99%Z) sampleWorld = (NotFound404, sampleWorld) /\
  acceptQuote sampleEnv (Some 7%Z) acceptedWorld = (Conflict409, acceptedWorld) /\
  acceptQuote (mkEnv 0 (mkDate 2025 12 1) ∅ (Some AtCommit)) (Some 7%Z) sampleWorld
    = (ServerError500, sampleWorld).
Proof.
  split; [|split; [|split; [|split; [|split]]]].
  - apply (refused_request_changes_nothing sampleEnv (mkQuoteRequest 42 0 10) None
             sampleWorld eq_refl). reflexivity.
  - apply (refused_request_changes_nothing sampleEnv (mkQuoteRequest 99 5000000 10) None
             sampleWorld eq_refl); reflexivity.
  - apply (refused_request_changes_nothing sampleEnv (mkQuoteRequest 42 0 10) None
             sampleWorld eq_refl). reflexivity.
  - apply (refused_request_changes_nothing sampleEnv (mkQuoteRequest 42 0 10) (Some 99%Z)
             sampleWorld eq_refl) with (id := 99%Z); reflexivity.
  - apply (refused_request_changes_nothing sampleEnv (mkQuoteRequest 42 0 10) (Some 7%Z)
             acceptedWorld eq_refl) with (id := 7%Z) (q := withStatus ACCEPTED sampleQuote);
      [reflexivity|reflexivity|discriminate].
  - apply (refused_request_changes_nothing (mkEnv 0 (mkDate 2025 12 1) ∅ (Some AtCommit))
             (mkQuoteRequest 42 0 10) (Some 7%Z) sampleWorld eq_refl)
      with (id := 7%Z) (q := sampleQuote) (f := AtCommit); reflexivity.
Defined.

(** X7. A quote just created can be accepted: the policy belongs to the
    customer of the request, runs for the requested term from the day of
    acceptance, and can be read back by [GET /policies/:id] under an id
    that was not in use before. *)
Theorem created_quote_can_be_accepted
    (env env' : Env) (r : QuoteRequest) (w : World) (c : Pricing.RiskProfile) :
  inTx w = None -> wellFormed (committed w) ->
  validQuoteRequest r = true -> customers env !! req_customerId r = Some c ->
  txFailure env' = None ->
  exists quote w1 policy w2,
    createQuote env r w = (Created201 quote, w1) /\
    acceptQuote env' (Some (quote_id quote)) w1 = (Created201 policy, w2) /\
    quoteId policy = quote_id quote /\
    policy_customerId policy = req_customerId r /\
    startDate policy = today env' /\
    endDate policy = addYears (today env') (req_termYears r) /\
    getPolicy (policy_id policy) w = Missing404 /\
    getPolicy (policy_id policy) w2 = Ok200 policy.
Proof.
  intros Htx Hwf Hv Hc Hok.
  destruct (createQuote_cases env r w) as [[_ H] | [(_ & _ & H) | (c' & _ & Hc' & Hplan)]];
    try congruence.
  cbv zeta in Hplan. rewrite created_world in Hplan by exact Htx.
  assert (c' = c) as -> by congruence.
  eexists _, _, _, _. split; [exact Hplan|].
  unfold acceptQuote. cbn [committed quote_id].
  erewrite acceptQuotePlan_pending;
    [|unfold insertQuote; cbn; apply lookup_insert_eq | reflexivity | exact Hok].
  cbv zeta. split; [reflexivity|].
  cbn [quoteId policy_customerId startDate endDate policy_id quote_id
       quote_customerId termYears].
  repeat (split; [reflexivity|]).
  unfold getPolicy, insertQuote; cbn. split.
  - destruct (policies (committed w) !! nextPolicyId (committed w)) as [p0|] eqn:E;
      [|reflexivity].
    apply (proj2 (proj1 (proj2 Hwf))) in E. lia.
  - rewrite lookup_insert_eq. reflexivity.
Qed.

Lemma created_quote_can_be_accepted_witness :
  exists quote w1 policy w2,
    createQuote sampleEnv (mkQuoteRequest 42 5000000 10) sampleWorld
      = (Created201 quote, w1) /\
    acceptQuote sampleEnv (Some (quote_id quote)) w1 = (Created201 policy, w2) /\
    endDate policy = mkDate 2035 12 1 /\
    getPolicy (policy_id policy) w2 = Ok200 policy.
Proof.
  destruct (created_quote_can_be_accepted sampleEnv sampleEnv
              (mkQuoteRequest 42 5000000 10) sampleWorld
              (Pricing.mkRisk 35 false Pricing.LOW))
    as (quote & w1 & policy & w2 & H1 & H2 & _ & _ & _ & H3 & _ & H4).
  - reflexivity.
  - exact sampleWorld_wellFormed.
  - reflexivity.
  - apply lookup_singleton_eq.
  - reflexivity.
  - exists quote, w1, policy, w2. repeat split; assumption.
Defined.

(** X8. Whatever requests are served, in whatever order, the database stays
    well formed: rows sit under their own ids below the counters, every
    policy refers to a stored quote that is no longer PENDING, and no
    quote has two policies; and a policy, once issued, is returned by
    [GET /policies/:id] ever after. *)
Theorem serveAll_keeps_wellFormed (calls : list (Env * Call)) (w : World) :
  inTx w = None -> wellFormed (committed w) ->
  wellFormed (committed (serveAll calls w)) /\
  onePolicyPerQuote (committed (serveAll calls w)) /\
  (forall id p, getPolicy id w = Ok200 p -> getPolicy id (serveAll calls w) = Ok200 p).
Proof.
  intros Htx Hwf.
  destruct (serveAll_steps calls w Htx Hwf) as (_ & Hwf' & (_ & Hpol & _)).
  split; [exact Hwf'|]. split; [apply Hwf'|].
  intros id p. unfold getPolicy.
  destruct (policies (committed w) !! id) as [p0|] eqn:E; [|discriminate].
  intros [= ->]. rewrite (Hpol id p E). reflexivity.
Qed.

Lemma serveAll_keeps_wellFormed_witness :
  wellFormed (committed (serveAll sampleCalls sampleWorld)) /\
  onePolicyPerQuote (committed (serveAll sampleCalls sampleWorld)).
Proof.
  destruct (serveAll_keeps_wellFormed sampleCalls sampleWorld eq_refl
              sampleWorld_wellFormed) as (H1 & H2 & _).
  split; assumption.
Defined.

(** X9. Quotes are never deleted and never repriced: whatever requests are
    served, a stored quote keeps its id, customer, coverage, term and
    premium; its status either stays or moves from PENDING to ACCEPTED,
    so an ACCEPTED or EXPIRED quote stays as it is. *)
Theorem quotes_only_change_status
    (calls : list (Env * Call)) (w : World) (j : Z) (q : Quote) :
  inTx w = None -> wellFormed (committed w) ->
  quotes (committed w) !! j = Some q ->
  exists q',
    quotes (committed (serveAll calls w)) !! j = Some q' /\
    sameButStatus q q' /\
    statusStep (quote_status q) (quote_status q') /\
    (quote_status q <> PENDING -> q' = q).
Proof.
  intros Htx Hwf Hq.
  destruct (serveAll_steps calls w Htx Hwf) as (_ & _ & (Hquotes & _)).
  destruct (Hquotes j q Hq) as (q' & Hq' & Hsame & Hstep).
  exists q'. repeat split; try assumption; try apply Hsame.
  intros Hterm. destruct Hstep as [Heq | [Hp _]]; [|congruence].
  destruct Hsame as (A1 & A2 & A3 & A4 & A5).
  destruct q, q'; cbn in *. congruence.
Qed.

Lemma quotes_only_change_status_witness :
  exists q',
    quotes (committed (serveAll sampleCalls sampleWorld)) !! 7%Z = Some q' /\
    monthlyPremium q' = monthlyPremium sampleQuote.
Proof.
  destruct (quotes_only_change_status sampleCalls sampleWorld 7 sampleQuote eq_refl
              sampleWorld_wellFormed sampleQuote_lookup)
    as (q' & H1 & (_ & _ & _ & _ & H2) & _).
  exists q'. split; assumption.
Defined.

(** ** Counters and rows when handlers may stop half-way *)

Lemma crash_closed (w : World) : inTx w = None -> crash w = w.
Proof. destruct w as [d tx s qc pc]; cbn. intros ->. reflexivity. Qed.

(** Where a stopped handler leaves the world, against where it was and
    where the handler run to its end would have left it: nothing done;
    the row written and nothing after it; the row and the message; or
    everything. *)
Lemma serveUntil_cases (c : Env * Call) (k : nat) (w : World) :
  inTx w = None ->
  let w1 := serve w c in
  let w' := Interrupted.serveUntil w (c, k) in
  inTx w' = None /\
  (w' = w \/
   (committed w' = committed w1 /\ sqs w' = sqs w /\
    quotes_created_total w' = quotes_created_total w /\
    policies_issued_total w' = policies_issued_total w /\
    (quotes_created_total w <= quotes_created_total w1)%nat /\
    (policies_issued_total w <= policies_issued_total w1)%nat /\
    (quotes_created_total w1 + policies_issued_total w1
       = S (quotes_created_total w + policies_issued_total w))%nat) \/
   (committed w' = committed w1 /\ sqs w' = sqs w1 /\
    quotes_created_total w' = quotes_created_total w /\
    policies_issued_total w' = policies_issued_total w /\
    quotes_created_total w1 = quotes_created_total w /\
    policies_issued_total w1 = S (policies_issued_total w) /\
    length (sqs w1) = S (length (sqs w))) \/
   w' = w1).
Proof.
  intros Htx. cbv zeta.
  split; [reflexivity|].
  destruct w as [d tx s qc pc]; cbn in Htx; subst tx.
  unfold Interrupted.serveUntil, Interrupted.effects, serve, createQuote, acceptQuote;
    cbn [fst snd committed].
  destruct c as [env [r|idParam]].
  - destruct (createQuotePlan env r d) as [resp ops] eqn:Hplan.
    unfold createQuotePlan in Hplan.
    destruct (negb (validQuoteRequest r));
      [injection Hplan as <- <-; left; destruct k; reflexivity|].
    destruct (customers env !! req_customerId r) as [cust|];
      [|injection Hplan as <- <-; left; destruct k; reflexivity].
    injection Hplan as <- <-. cbn [snd].
    destruct k as [|[|k]].
    + left. reflexivity.
    + right. left. cbn. repeat split; lia.
    + right. right. right. destruct k; reflexivity.
  - destruct (acceptQuotePlan env idParam d) as [resp ops] eqn:Hplan.
    unfold acceptQuotePlan in Hplan.
    destruct idParam as [id|];
      [|injection Hplan as <- <-; left; destruct k; reflexivity].
    destruct (quotes d !! id) as [q|];
      [|injection Hplan as <- <-; left; destruct k; reflexivity].
    destruct (negb (isPENDING (quote_status q)));
      [injection Hplan as <- <-; left; destruct k; reflexivity|].
    destruct (txFailure env) as [[]|]; injection Hplan as <- <-; cbn [snd].
    + left. do 5 (destruct k as [|k]; [reflexivity|]). reflexivity.
    + left. do 5 (destruct k as [|k]; [reflexivity|]). reflexivity.
    + left. do 5 (destruct k as [|k]; [reflexivity|]). reflexivity.
    + destruct k as [|[|[|[|[|[|k]]]]]].
      * left. reflexivity.
      * left. reflexivity.
      * left. reflexivity.
      * left. reflexivity.
      * right. left. cbn. repeat split; lia.
      * right. right. left. cbn. rewrite length_app. cbn. repeat split; lia.
      * right. right. right. destruct k; reflexivity.
Qed.

Lemma effects_length (c : Env * Call) (d : Db) :
  (length (Interrupted.effects c d) <= 6)%nat.
Proof.
  destruct c as [env [r|idParam]]; cbn [Interrupted.effects].
  - unfold createQuotePlan.
    destruct (negb (validQuoteRequest r)); [cbn; lia|].
    destruct (customers env !! req_customerId r); cbn; lia.
  - unfold acceptQuotePlan.
    destruct idParam as [id|]; [|cbn; lia].
    destruct (quotes d !! id) as [q|]; [|cbn; lia].
    destruct (negb (isPENDING (quote_status q))); [cbn; lia|].
    destruct (txFailure env) as [[]|]; cbn; lia.
Qed.

(** A handler given room for all its effects is the handler. *)
Lemma serveUntil_complete (c : Env * Call) (k : nat) (w : World) :
  inTx w = None -> wellFormed (committed w) -> (6 <= k)%nat ->
  Interrupted.serveUntil w (c, k) = serve w c.
Proof.
  intros Htx Hwf Hk. unfold Interrupted.serveUntil; cbn [fst snd].
  rewrite firstn_all2 by (pose proof (effects_length c (committed w)); lia).
  assert (Hrun : run (Interrupted.effects c (committed w)) w = serve w c).
  { destruct c as [env [r|idParam]]; cbn [Interrupted.effects serve].
    - unfold createQuote. destruct (createQuotePlan env r (committed w)); reflexivity.
    - unfold acceptQuote. destruct (acceptQuotePlan env idParam (committed w)); reflexivity. }
  rewrite Hrun. apply crash_closed.
  destruct (serve_step c w Htx Hwf) as (H & _). exact H.
Qed.

Lemma serveUntil_step (c : Env * Call) (k : nat) (w : World) :
  inTx w = None -> wellFormed (committed w) ->
  let w' := Interrupted.serveUntil w (c, k) in
  inTx w' = None /\ wellFormed (committed w') /\
  (policies_issued_total w' + length (sqs w)
     <= policies_issued_total w + length (sqs w'))%nat /\
  (length (sqs w') + size (policies (committed w))
     <= length (sqs w) + size (policies (committed w')))%nat /\
  (quotes_created_total w' + size (quotes (committed w))
     <= quotes_created_total w + size (quotes (committed w')))%nat.
Proof.
  intros Htx Hwf. cbv zeta.
  destruct (serve_step c w Htx Hwf) as (Htx1 & Hwf1 & (_ & _ & Hp & Hs & Hq)).
  destruct (serveUntil_cases c k w Htx) as (Htx' & Hcases). cbv zeta in Hcases.
  split; [exact Htx'|].
  destruct Hcases as [-> | [(Hc & Hsq & Hqc & Hpc & Hq0 & Hp0 & Hsum)
                           | [(Hc & Hsq & Hqc & Hpc & Hq1 & Hp1 & Hlen) | ->]]].
  - split; [exact Hwf|]. repeat split; lia.
  - rewrite Hc, Hsq, Hqc, Hpc. split; [exact Hwf1|]. repeat split; lia.
  - rewrite Hc, Hsq, Hqc, Hpc. split; [exact Hwf1|]. repeat split; lia.
  - split; [exact Hwf1|]. repeat split; lia.
Qed.

(** X10. Over any run of quote and accept requests, each of which may
    stop after any number of its effects (the next step threw, or the
    process died; an open transaction is rolled back),
    policies_issued_total grows by at most the number of POLICY_ISSUED
    messages published, which is at most the number of policies added,
    and quotes_created_total by at most the number of quotes added.
    When every handler runs to its end the three are equalities. *)
Theorem counters_bounded_by_rows (calls : list (Env * Call * nat)) (w : World) :
  inTx w = None -> wellFormed (committed w) ->
  let w' := Interrupted.serveAllUntil calls w in
  (policies_issued_total w' + length (sqs w)
     <= policies_issued_total w + length (sqs w'))%nat /\
  (length (sqs w') + size (policies (committed w))
     <= length (sqs w) + size (policies (committed w')))%nat /\
  (quotes_created_total w' + size (quotes (committed w))
     <= quotes_created_total w + size (quotes (committed w')))%nat /\
  (Forall (fun c => (6 <= snd c)%nat) calls ->
   w' = serveAll (fst <$> calls) w /\
   (policies_issued_total w' + length (sqs w)
      = policies_issued_total w + length (sqs w'))%nat /\
   (length (sqs w') + size (policies (committed w))
      = length (sqs w) + size (policies (committed w')))%nat /\
   (quotes_created_total w' + size (quotes (committed w))
      = quotes_created_total w + size (quotes (committed w')))%nat).
Proof.
  intros Htx Hwf. cbv zeta.
  assert (Hineq : forall calls w, inTx w = None -> wellFormed (committed w) ->
    let w' := Interrupted.serveAllUntil calls w in
    (policies_issued_total w' + length (sqs w)
       <= policies_issued_total w + length (sqs w'))%nat /\
    (length (sqs w') + size (policies (committed w))
       <= length (sqs w) + size (policies (committed w')))%nat /\
    (quotes_created_total w' + size (quotes (committed w))
       <= quotes_created_total w + size (quotes (committed w')))%nat).
  { clear. induction calls as [|[c k] calls IH]; intros w Htx Hwf; cbv zeta.
    - cbn. repeat split; lia.
    - unfold Interrupted.serveAllUntil; cbn [fold_left].
      destruct (serveUntil_step c k w Htx Hwf) as (Htx1 & Hwf1 & H1 & H2 & H3).
      cbv zeta in *.
      destruct (IH _ Htx1 Hwf1) as (K1 & K2 & K3).
      unfold Interrupted.serveAllUntil in K1, K2, K3. repeat split; lia. }
  destruct (Hineq calls w Htx Hwf) as (H1 & H2 & H3).
  split; [exact H1|]. split; [exact H2|]. split; [exact H3|].
  intros Hall.
  assert (Heq : Interrupted.serveAllUntil calls w = serveAll (fst <$> calls) w).
  { clear H1 H2 H3 Hineq. revert w Htx Hwf.
    induction Hall as [|[c k] calls Hk _ IH]; intros w Htx Hwf; [reflexivity|].
    unfold Interrupted.serveAllUntil, serveAll; cbn [fold_left fmap list_fmap fst].
    cbn [snd] in Hk. rewrite (serveUntil_complete c k w Htx Hwf Hk).
    destruct (serve_step c w Htx Hwf) as (Htx1 & Hwf1 & _).
    apply (IH _ Htx1 Hwf1). }
  split; [exact Heq|]. rewrite Heq.
  destruct (serveAll_steps (fst <$> calls) w Htx Hwf) as (_ & _ & (_ & _ & Hp & Hs & Hq)).
  repeat split; lia.
Qed.

Lemma counters_bounded_by_rows_witness :
  policies_issued_total (Interrupted.serveAllUntil Interrupted.sampleStops sampleWorld)
    = 1%nat /\
  length (sqs (Interrupted.serveAllUntil Interrupted.sampleStops sampleWorld)) = 1%nat /\
  size (policies (committed (Interrupted.serveAllUntil Interrupted.sampleStops sampleWorld)))
    = 2%nat /\
  quotes_created_total (Interrupted.serveAllUntil Interrupted.sampleStops sampleWorld)
    = 1%nat /\
  size (quotes (committed (Interrupted.serveAllUntil Interrupted.sampleStops sampleWorld)))
    = 2%nat /\
  (policies_issued_total (Interrupted.serveAllUntil Interrupted.sampleStops sampleWorld)
     + length (sqs sampleWorld)
   <= policies_issued_total sampleWorld
      + length (sqs (Interrupted.serveAllUntil Interrupted.sampleStops sampleWorld)))%nat.
Proof.
  destruct (counters_bounded_by_rows Interrupted.sampleStops sampleWorld eq_refl
              sampleWorld_wellFormed) as (H1 & _).
  split; [vm_compute; reflexivity|]. split; [vm_compute; reflexivity|].
  split; [vm_compute; reflexivity|]. split; [vm_compute; reflexivity|].
  split; [vm_compute; reflexivity|]. exact H1.
Defined.

(** ** Policy numbers *)

Lemma pretty_N_char_noDash (x : N) : Ascii.eqb (pretty_N_char x) dash = false.
Proof. unfold pretty_N_char. repeat case_match; reflexivity. Qed.

Lemma pretty_N_go_noDash (x : N) (s : string) :
  noDash s = true -> noDash (pretty_N_go x s) = true.
Proof.
  revert s. induction (N.lt_wf_0 x) as [x _ IH]; intros s Hs.
  assert (x = 0 \/ 0 < x)%N as [-> | Hpos] by lia.
  - rewrite pretty_N_go_0. exact Hs.
  - rewrite pretty_N_go_step by exact Hpos. apply IH.
    + apply N.div_lt; [exact Hpos | reflexivity].
    + cbn [noDash]. rewrite pretty_N_char_noDash, Hs. reflexivity.
Qed.

Lemma pretty_nonneg_noDash (z : Z) : (0 <= z)%Z -> noDash (pretty z) = true.
Proof.
  intros Hz. destruct z as [|p|p]; [reflexivity | | lia].
  unfold pretty, pretty_Z, pretty, pretty_positive, pretty, pretty_N.
  case_decide; [reflexivity|]. apply pretty_N_go_noDash. reflexivity.
Qed.

(** A dash-free prefix is determined by what follows it up to the first
    dash. *)
Lemma split_at_first_dash (a a' b b' : string) :
  noDash a = true -> noDash a' = true ->
  a +:+ "-" +:+ b = a' +:+ "-" +:+ b' -> a = a' /\ b = b'.
Proof.
  revert a'. induction a as [|c a IH]; intros [|c' a']; simpl; intros Ha Ha' Heq.
  - injection Heq as Heq. split; [reflexivity | exact Heq].
  - injection Heq as Hc _. rewrite <- Hc in Ha'. discriminate Ha'.
  - injection Heq as Hc _. rewrite Hc in Ha. discriminate Ha.
  - injection Heq as Hc Heq.
    apply andb_true_iff in Ha as [_ Ha]. apply andb_true_iff in Ha' as [_ Ha'].
    destruct (IH a' Ha Ha' Heq) as [Ha1 Hb1]. split; congruence.
Qed.

Lemma numbered_same_number (p p' : Policy) :
  numbered p -> numbered p' -> policyNumber p = policyNumber p' ->
  quoteId p = quoteId p'.
Proof.
  intros (n & Hn & ->) (n' & Hn' & ->) Heq.
  cbn in Heq. injection Heq as Heq.
  apply split_at_first_dash in Heq as [_ Heq];
    [|apply pretty_nonneg_noDash; assumption..].
  apply (inj pretty) in Heq. exact Heq.
Qed.

Lemma serve_numbered (c : Env * Call) (w : World) :
  inTx w = None -> (0 <= nowMs (fst c))%Z ->
  policiesNumbered (committed w) -> policiesNumbered (committed (serve w c)).
Proof.
  intros Htx Hnow Hnum. destruct c as [env [r | idParam]]; cbn [serve fst] in *.
  - destruct (createQuote_cases env r w) as [[-> _] | [[-> _] | (c & _ & _ & Hc)]];
      try exact Hnum.
    cbv zeta in Hc. rewrite Hc, created_world by exact Htx. exact Hnum.
  - destruct (acceptQuote_cases env idParam w)
      as [(resp & -> & _) | [(id & q & f & _ & _ & _ & _ & ->) | (id & q & _ & _ & _ & _ & Hc)]];
      try exact Hnum.
    cbv zeta in Hc. rewrite Hc. cbn [snd committed].
    unfold policiesNumbered, afterIssuance, updateQuoteStatus, insertPolicy; cbn.
    intros i p. rewrite lookup_insert. case_decide.
    + intros [= <-]. exists (nowMs env). split; [exact Hnow | reflexivity].
    + apply Hnum.
Qed.

(** X11. Policy numbers are unique: when the clock never reads a negative
    time, no two policies of the database ever carry the same
    policyNumber, even if they are issued in the same millisecond. *)
Theorem policy_numbers_unique
    (calls : list (Env * Call)) (w : World) (i j : Z) (p p' : Policy) :
  inTx w = None -> wellFormed (committed w) -> policiesNumbered (committed w) ->
  Forall (fun c => (0 <= nowMs (fst c))%Z) calls ->
  policies (committed (serveAll calls w)) !! i = Some p ->
  policies (committed (serveAll calls w)) !! j = Some p' ->
  policyNumber p = policyNumber p' -> i = j.
Proof.
  intros Htx Hwf Hnum Hnow.
  assert (H : inTx (serveAll calls w) = None /\
              wellFormed (committed (serveAll calls w)) /\
              policiesNumbered (committed (serveAll calls w))).
  { unfold serveAll. revert w Htx Hwf Hnum.
    induction Hnow as [|c calls Hc _ IH]; intros w Htx Hwf Hnum; cbn [fold_left].
    - split; [exact Htx | split; [exact Hwf | exact Hnum]].
    - destruct (serve_step c w Htx Hwf) as (Htx1 & Hwf1 & _).
      apply IH; [exact Htx1 | exact Hwf1 |].
      apply serve_numbered; [exact Htx | exact Hc | exact Hnum]. }
  destruct H as (_ & ((_ & _ & Huniq) & _) & Hnum').
  intros Hp Hp' Heq. apply (Huniq i j p p' Hp Hp').
  apply numbered_same_number; [eapply Hnum' | eapply Hnum' | exact Heq]; eassumption.
Qed.

Lemma sampleWorld_numbered : policiesNumbered (committed sampleWorld).
Proof.
  unfold policiesNumbered, sampleWorld, sampleDb; cbn [committed policies].
  intros i p Hp. rewrite lookup_empty in Hp. discriminate.
Defined.

Lemma policy_numbers_unique_witness :
  exists p p',
    policies (committed (serveAll sampleCalls sampleWorld)) !! 1%Z = Some p /\
    policies (committed (serveAll sampleCalls sampleWorld)) !! 2%Z = Some p' /\
    policyNumber p <> policyNumber p'.
Proof.
  eexists _, _. split; [reflexivity|]. split; [reflexivity|].
  intros Heq.
  assert (H : 1%Z = 2%Z).
  { eapply (policy_numbers_unique sampleCalls sampleWorld 1 2 _ _ eq_refl
              sampleWorld_wellFormed sampleWorld_numbered).
    - repeat constructor; cbn; lia.
    - reflexivity.
    - reflexivity.
    - exact Heq. }
  discriminate H.
Defined.

End PolicyRoutesFacts.

(* ===================================================================== *)
(** * Further properties of the notification worker *)
(* ===================================================================== *)

Section AcknowledgementFacts.

Import Worker Acknowledgement.

Variable JSON_parse : string -> option Js.

Lemma notifications_of_logs (w w' : World) :
  logs w = logs w' -> notifications w = notifications w'.
Proof. unfold notifications. intros ->. reflexivity. Qed.

Lemma notifications_incrementFailed (w : World) :
  notifications (incrementFailed w) = notifications w.
Proof. reflexivity. Qed.

Lemma notifications_incrementProcessed (q dl : list Message) (w : World) :
  notifications (incrementProcessed (mkWorld q dl (logs w) (processed w) (failed w)))
    = notifications w.
Proof. reflexivity. Qed.

(** The four ways [processMessage] can go. *)
Lemma processMessage_cases (w : World) (d : Delivery) :
  (completes JSON_parse (message d) = false /\
   exists e, processMessage JSON_parse w d = onMessageError e (message d) w) \/
  (exists w1 entry,
     completes JSON_parse (message d) = true /\
     handleMessage JSON_parse (message d) w = Normal w1 /\
     w1 = logger (level entry) (text entry) (meta entry) w /\
     (if notifies JSON_parse (message d)
      then text entry = welcomeText else text entry = "Unhandled message type") /\
     ((deleteSucceeds d = false /\
       processMessage JSON_parse w d = onMessageError SqsError (message d) w1) \/
      (deleteSucceeds d = true /\
       processMessage JSON_parse w d =
         incrementProcessed
           (mkWorld (filter (fun m => ReceiptHandle m <> ReceiptHandle (message d))
                            (queue w1))
                    (deadLetters w1) (logs w1) (processed w1) (failed w1))))).
Proof.
  unfold processMessage, handleMessage, completes, notifies, deleteMessage.
  destruct (JSON_parse (Body (message d))) as [body|]; [|left; eauto].
  destruct (getProp "type" body) as [ty|e]; [|left; eauto].
  right. destruct (isPolicyIssued ty).
  - eexists _, (mkLog info welcomeText _). split; [reflexivity|].
    split; [reflexivity|]. split; [reflexivity|]. split; [reflexivity|].
    destruct (deleteSucceeds d); [right | left]; split; reflexivity.
  - eexists _, (mkLog warn "Unhandled message type" _). split; [reflexivity|].
    split; [reflexivity|]. split; [reflexivity|]. split; [reflexivity|].
    destruct (deleteSucceeds d); [right | left]; split; reflexivity.
Qed.

Lemma processMessage_counts (w : World) (d : Delivery) :
  notifications (processMessage JSON_parse w d)
    = (notifications w + if notifies JSON_parse (message d) then 1 else 0)%nat /\
  processed (processMessage JSON_parse w d)
    = (processed w + if acknowledged JSON_parse d then 1 else 0)%nat /\
  failed (processMessage JSON_parse w d)
    = (failed w + if acknowledged JSON_parse d then 0 else 1)%nat.
Proof.
  unfold acknowledged.
  destruct (processMessage_cases w d)
    as [(Hc & e & ->) | (w1 & entry & Hc & _ & -> & Hn & [(Hd & ->) | (Hd & ->)])];
    rewrite Hc, ?Hd; cbn [andb].
  - assert (Hn : notifies JSON_parse (message d) = false).
    { unfold notifies, completes in *.
      destruct (JSON_parse (Body (message d))) as [body|]; [|reflexivity].
      destruct (getProp "type" body); [discriminate | reflexivity]. }
    rewrite Hn. unfold onMessageError.
    split; [|split; cbn; lia].
    rewrite notifications_incrementFailed, notifications_logger.
    reflexivity.
  - unfold onMessageError. split; [|split; cbn; lia].
    rewrite notifications_incrementFailed, !notifications_logger.
    destruct (notifies JSON_parse (message d)); rewrite Hn; cbn; lia.
  - split; [|split; cbn; lia].
    rewrite notifications_incrementProcessed, notifications_logger.
    destruct (notifies JSON_parse (message d)); rewrite Hn; cbn; lia.
Qed.

Lemma batch_counts (ds : list Delivery) (w : World) :
  notifications (fold_left (processMessage JSON_parse) ds w)
    = (notifications w
       + length (List.filter (fun d => notifies JSON_parse (message d)) ds))%nat /\
  processed (fold_left (processMessage JSON_parse) ds w)
    = (processed w + length (List.filter (acknowledged JSON_parse) ds))%nat /\
  failed (fold_left (processMessage JSON_parse) ds w)
    = (failed w
       + length (List.filter (fun d => negb (acknowledged JSON_parse d)) ds))%nat.
Proof.
  revert w. induction ds as [|d ds IH]; intros w; cbn [fold_left List.filter].
  - cbn. repeat split; lia.
  - destruct (IH (processMessage JSON_parse w d)) as (-> & -> & ->).
    destruct (processMessage_counts w d) as (-> & -> & ->).
    destruct (notifies JSON_parse (message d)), (acknowledged JSON_parse d);
      cbn; repeat split; lia.
Qed.

Lemma poll_counts (rs : list Receive) (w : World) :
  notifications (poll JSON_parse rs w)
    = (notifications w
       + length (List.filter (fun d => notifies JSON_parse (message d))
                             (deliveries rs)))%nat /\
  processed (poll JSON_parse rs w)
    = (processed w + length (List.filter (acknowledged JSON_parse) (deliveries rs)))%nat /\
  failed (poll JSON_parse rs w)
    = (failed w
       + length (List.filter (fun d => negb (acknowledged JSON_parse d))
                             (deliveries rs)))%nat.
Proof.
  unfold poll. revert w.
  induction rs as [|r rs IH]; intros w; cbn [fold_left].
  - cbn. repeat split; lia.
  - destruct (IH (pollIteration JSON_parse w r)) as (-> & -> & ->).
    rewrite (deliveries_cons r rs), !List.filter_app, !length_app.
    destruct r as [|[ds|]].
    + cbn [pollIteration]. rewrite notifications_logger. cbn. repeat split; lia.
    + rewrite pollIteration_batch.
      destruct (batch_counts ds w) as (-> & -> & ->).
      unfold deliveries; cbn [flat_map]. rewrite app_nil_r. repeat split; lia.
    + cbn. repeat split; lia.
Qed.

(** X12. The notification is performed once for every delivery of a
    POLICY_ISSUED message, whether or not it can be deleted afterwards,
    and for no other delivery. *)
Theorem notifications_count_issued_deliveries (rs : list Receive) (w : World) :
  notifications (poll JSON_parse rs w)
    = (notifications w
       + length (List.filter (fun d => notifies JSON_parse (message d))
                             (deliveries rs)))%nat.
Proof. apply poll_counts. Qed.

(** X13. The two counters split the deliveries: processed counts those whose
    handler completed and whose delete was accepted, failed counts all
    the others, and a failed receive counts as neither. *)
Theorem processed_and_failed_count_deliveries (rs : list Receive) (w : World) :
  processed (poll JSON_parse rs w)
    = (processed w + length (List.filter (acknowledged JSON_parse) (deliveries rs)))%nat /\
  failed (poll JSON_parse rs w)
    = (failed w
       + length (List.filter (fun d => negb (acknowledged JSON_parse d))
                             (deliveries rs)))%nat.
Proof. apply poll_counts. Qed.

(** ** The queue and the log *)

Lemma processMessage_queue (w : World) (d : Delivery) :
  (queue (processMessage JSON_parse w d) = queue w /\
   acknowledged JSON_parse d = false) \/
  (queue (processMessage JSON_parse w d)
     = filter (fun m => ReceiptHandle m <> ReceiptHandle (message d)) (queue w) /\
   acknowledged JSON_parse d = true).
Proof.
  unfold acknowledged.
  destruct (processMessage_cases w d)
    as [(Hc & e & ->) | (w1 & entry & Hc & _ & -> & _ & [(Hd & ->) | (Hd & ->)])];
    rewrite Hc, ?Hd; cbn [andb].
  - left. split; reflexivity.
  - left. split; reflexivity.
  - right. split; reflexivity.
Qed.

Lemma processMessage_logs (w : World) (d : Delivery) :
  exists extra, logs (processMessage JSON_parse w d) = logs w ++ extra.
Proof.
  destruct (processMessage_cases w d)
    as [(_ & e & ->) | (w1 & entry & _ & _ & -> & _ & [(_ & ->) | (_ & ->)])];
    cbn; eexists; try rewrite <- app_assoc; reflexivity.
Qed.

Lemma processMessage_keeps (w : World) (d : Delivery) (m : Message) :
  (held m (processMessage JSON_parse w d) -> held m w) /\
  (held m w -> ReceiptHandle (message d) <> ReceiptHandle m ->
   held m (processMessage JSON_parse w d)) /\
  (acknowledged JSON_parse d = true ->
   ReceiptHandle m = ReceiptHandle (message d) ->
   ~ held m (processMessage JSON_parse w d)).
Proof.
  unfold held.
  destruct (processMessage_queue w d) as [[-> Ha] | [-> Ha]]; rewrite Ha.
  - split; [auto | split; [auto | discriminate]].
  - rewrite <- !list_elem_of_In. setoid_rewrite list_elem_of_filter.
    split; [intros [_ H]; exact H|]. split.
    + intros Hm Hne. split; [congruence | exact Hm].
    + intros _ Heq [Hne _]. apply Hne, Heq.
Qed.

Lemma batch_keeps (ds : list Delivery) (w : World) (m : Message) :
  (held m (fold_left (processMessage JSON_parse) ds w) -> held m w) /\
  (held m w ->
   (forall d, In d ds -> ReceiptHandle (message d) <> ReceiptHandle m) ->
   held m (fold_left (processMessage JSON_parse) ds w)) /\
  (forall d, In d ds -> acknowledged JSON_parse d = true ->
             ReceiptHandle m = ReceiptHandle (message d) ->
             ~ held m (fold_left (processMessage JSON_parse) ds w)) /\
  (exists extra, logs (fold_left (processMessage JSON_parse) ds w) = logs w ++ extra).
Proof.
  revert w. induction ds as [|d ds IH]; intros w; cbn [fold_left].
  - split; [auto|]. split; [auto|]. split; [intros d []|].
    exists []. rewrite app_nil_r. reflexivity.
  - destruct (IH (processMessage JSON_parse w d)) as (I1 & I2 & I3 & (x2 & I4)).
    destruct (processMessage_keeps w d m) as (K1 & K2 & K3).
    destruct (processMessage_logs w d) as (x1 & K4).
    split; [auto|]. split; [|split].
    + intros Hm Hne. apply I2.
      * apply K2; [exact Hm | apply Hne; left; reflexivity].
      * intros d' Hd'. apply Hne. right. exact Hd'.
    + intros d' [<- | Hd'] Ha Heq.
      * intros Hm. apply (K3 Ha Heq), I1, Hm.
      * apply (I3 d' Hd' Ha Heq).
    + exists (x1 ++ x2). rewrite I4, K4, app_assoc. reflexivity.
Qed.

(** X14. The worker only ever takes messages off the queue and only ever
    appends to the log: whatever it receives, a message in the queue
    afterwards was there before, a message whose receipt handle was not
    delivered is still there, an acknowledged delivery is gone, and the
    earlier log entries are untouched. *)
Theorem poll_queue_shrinks_log_grows (rs : list Receive) (w : World) (m : Message) :
  (held m (poll JSON_parse rs w) -> held m w) /\
  (held m w ->
   (forall d, In d (deliveries rs) -> ReceiptHandle (message d) <> ReceiptHandle m) ->
   held m (poll JSON_parse rs w)) /\
  (forall d, In d (deliveries rs) -> acknowledged JSON_parse d = true ->
             ReceiptHandle m = ReceiptHandle (message d) ->
             ~ held m (poll JSON_parse rs w)) /\
  (exists extra, logs (poll JSON_parse rs w) = logs w ++ extra).
Proof.
  unfold poll. revert w.
  induction rs as [|r rs IH]; intros w; cbn [fold_left].
  - split; [auto|]. split; [auto|]. split; [intros d []|].
    exists []. rewrite app_nil_r. reflexivity.
  - destruct (IH (pollIteration JSON_parse w r)) as (I1 & I2 & I3 & (x2 & I4)).
    assert (K : (held m (pollIteration JSON_parse w r) -> held m w) /\
                (held m w ->
                 (forall d, In d (deliveries [r]) ->
                            ReceiptHandle (message d) <> ReceiptHandle m) ->
                 held m (pollIteration JSON_parse w r)) /\
                (forall d, In d (deliveries [r]) -> acknowledged JSON_parse d = true ->
                           ReceiptHandle m = ReceiptHandle (message d) ->
                           ~ held m (pollIteration JSON_parse w r)) /\
                (exists extra, logs (pollIteration JSON_parse w r) = logs w ++ extra)).
    { destruct r as [|[ds|]].
      - cbn. split; [auto|]. split; [auto|]. split; [intros d []|]. eauto.
      - rewrite pollIteration_batch. unfold deliveries; cbn [flat_map].
        rewrite app_nil_r. apply batch_keeps.
      - cbn. split; [auto|]. split; [auto|]. split; [intros d []|].
        exists []. rewrite app_nil_r. reflexivity. }
    destruct K as (K1 & K2 & K3 & (x1 & K4)).
    rewrite (deliveries_cons r rs).
    split; [auto|]. split; [|split].
    + intros Hm Hne. apply I2.
      * apply K2; [exact Hm|]. intros d Hd. apply Hne, in_or_app. left. exact Hd.
      * intros d Hd. apply Hne, in_or_app. right. exact Hd.
    + intros d Hd Ha Heq. apply in_app_or in Hd as [Hd | Hd].
      * intros Hm. apply (K3 d Hd Ha Heq), I1, Hm.
      * apply (I3 d Hd Ha Heq).
    + exists (x1 ++ x2). rewrite I4, K4, app_assoc. reflexivity.
Qed.

(** X15. A message of any other type than POLICY_ISSUED is not an error: its
    type is logged as unhandled, it is deleted and counted as processed,
    and no notification is made.  This is also what happens to a body
    that is valid JSON but not an object (a number, a string, an array,
    true or false), whose type reads as undefined. *)
Theorem unhandled_type_is_acknowledged
    (d : Delivery) (w : World) (body ty : Js) :
  JSON_parse (Body (message d)) = Some body ->
  getProp "type" body = Normal ty -> isPolicyIssued ty = false ->
  deleteSucceeds d = true ->
  ~ held (message d) (processMessage JSON_parse w d) /\
  logs (processMessage JSON_parse w d)
    = logs w ++ [mkLog warn "Unhandled message type" [("type", ty)]] /\
  processed (processMessage JSON_parse w d) = S (processed w) /\
  failed (processMessage JSON_parse w d) = failed w /\
  notifications (processMessage JSON_parse w d) = notifications w /\
  (forall n s items b,
     getProp "type" (JNum n) = Normal JUndefined /\
     getProp "type" (JStr s) = Normal JUndefined /\
     getProp "type" (JArr items) = Normal JUndefined /\
     getProp "type" (JBool b) = Normal JUndefined /\
     isPolicyIssued JUndefined = false).
Proof.
  intros Hparse Hty Hno Hdel.
  assert (Hc : completes JSON_parse (message d) = true)
    by (unfold completes; rewrite Hparse, Hty; reflexivity).
  assert (Hn : notifies JSON_parse (message d) = false)
    by (unfold notifies; rewrite Hparse, Hty; exact Hno).
  assert (Ha : acknowledged JSON_parse d = true)
    by (unfold acknowledged; rewrite Hc, Hdel; reflexivity).
  destruct (processMessage_counts w d) as (Hcn & Hcp & Hcf).
  rewrite Hn in Hcn. rewrite Ha in Hcp, Hcf.
  split; [apply (processMessage_keeps w d (message d)); [exact Ha | reflexivity]|].
  split.
  - unfold processMessage, handleMessage, deleteMessage.
    rewrite Hparse, Hty, Hno, Hdel. reflexivity.
  - split; [lia|]. split; [lia|]. split; [lia|].
    intros n s items b. repeat split.
Qed.

End AcknowledgementFacts.

Section AcknowledgementSamples.

Import Worker Acknowledgement.

Lemma unhandled_type_is_acknowledged_witness :
  ~ held (mkMessage "m-4" "rh-4" otherBody)
      (processMessage sampleParse
         (mkWorld [mkMessage "m-4" "rh-4" otherBody] [] [] 0 0)
         (mkDelivery (mkMessage "m-4" "rh-4" otherBody) true)).
Proof.
  apply (unhandled_type_is_acknowledged sampleParse
           (mkDelivery (mkMessage "m-4" "rh-4" otherBody) true)
           (mkWorld [mkMessage "m-4" "rh-4" otherBody] [] [] 0 0)
           otherJs (JStr "POLICY_CANCELLED")); reflexivity.
Defined.

(** The mixed run: two notifications for the message delivered twice,
    two deliveries processed and two failed. *)
Example mixedRun_counts :
  notifications (poll sampleParse mixedRun sampleWorld) = 2%nat /\
  processed (poll sampleParse mixedRun sampleWorld) = 2%nat /\
  failed (poll sampleParse mixedRun sampleWorld) = 2%nat /\
  queue (poll sampleParse mixedRun sampleWorld) = [malformedMessage; nullMessage].
Proof. repeat split; reflexivity. Qed.

End AcknowledgementSamples.

(* ===================================================================== *)
(** * Further properties of the request id middleware and error handler *)
(* ===================================================================== *)

Section CorrelationFacts.

Import Api Correlation.

Lemma requestIdMiddleware_shape (req : Request) (res : Response) (u : Uuids) :
  exists id u',
    requestIdMiddleware req res u =
      (mkRequest (headers req) (Some id), setHeader "X-Request-Id" id res, u', Next).
Proof.
  unfold requestIdMiddleware.
  destruct (headers req !! "x-request-id") as [s|];
    [destruct (truthy (JStr s))|]; cbn; eexists _, _; reflexivity.
Qed.

(** X16. The error handler after the request id middleware: the 500 response
    still carries the X-Request-Id header, and the log entry of the error
    carries the same id.  When the handler runs on a request the
    middleware never saw, the entry's requestId is undefined and the
    handler adds no header. *)
Theorem error_response_keeps_request_id
    (err : Thrown) (req : Request) (res : Response) (u : Uuids) (log : list LogEntry) :
  (let '(req', res', _, _) := requestIdMiddleware req res u in
   let '(res'', log', _) := errorHandler err req' res' log in
   exists id,
     requestId req' = Some id /\
     responseHeaders res'' !! "X-Request-Id" = Some id /\
     statusCode res'' = 500%Z /\
     exists entry, log' = log ++ [entry] /\ fieldOf "requestId" (meta entry) = JStr id) /\
  (requestId req = None ->
   let '(res'', log', _) := errorHandler err req res log in
   responseHeaders res'' = responseHeaders res /\
   exists entry, log' = log ++ [entry] /\ fieldOf "requestId" (meta entry) = JUndefined).
Proof.
  split.
  - destruct (requestIdMiddleware_shape req res u) as (id & u' & ->).
    cbn. exists id. split; [reflexivity|]. split; [apply lookup_insert_eq|].
    split; [reflexivity|]. eexists. split; reflexivity.
  - intros Hnone. cbn. split; [reflexivity|].
    eexists. split; [reflexivity|]. cbn. rewrite Hnone. reflexivity.
Qed.

(** X17. The middleware touches nothing but the id: every other response
    header, the status and the body are as before, an X-Request-Id set
    earlier is replaced, and the request headers are unchanged. *)
Theorem requestIdMiddleware_frame
    (req : Request) (res : Response) (u : Uuids) (name : string) :
  let '(req', res', _, _) := requestIdMiddleware req res u in
  headers req' = headers req /\
  statusCode res' = statusCode res /\
  body res' = body res /\
  (name <> "X-Request-Id" ->
   responseHeaders res' !! name = responseHeaders res !! name) /\
  responseHeaders res' !! "X-Request-Id" = requestId req' /\
  dom (responseHeaders res') = {[ "X-Request-Id" ]} ∪ dom (responseHeaders res).
Proof.
  destruct (requestIdMiddleware_shape req res u) as (id & u' & ->).
  cbn. repeat split.
  - intros Hne. apply lookup_insert_ne. congruence.
  - apply lookup_insert_eq.
  - apply dom_insert_L.
Qed.

Lemma assignIds_anonymous (reqs : list Request) (res : Response) (u : Uuids) :
  Forall (fun r => hasClientId r = false) reqs ->
  assignIds reqs res u =
    ((fun n => Some (uuidAt u n)) <$> seq (issued u) (length reqs),
     mkUuids (issued u + length reqs) (uuidAt u)).
Proof.
  intros Hall. revert u.
  induction Hall as [|req reqs Hreq _ IH]; intros u; cbn [assignIds length seq].
  - rewrite Nat.add_0_r. destruct u; reflexivity.
  - unfold hasClientId in Hreq. unfold requestIdMiddleware.
    destruct (headers req !! "x-request-id") as [s|].
    + rewrite Hreq. cbn. rewrite IH. cbn. repeat f_equal. lia.
    + cbn. rewrite IH. cbn. repeat f_equal. lia.
Qed.

(** X18. Requests that bring no usable id of their own each draw one UUID,
    and when the UUID source never repeats itself no two of them get the
    same id. *)
Theorem anonymous_requests_get_distinct_ids
    (reqs : list Request) (res : Response) (u : Uuids) :
  neverRepeats u -> Forall (fun r => hasClientId r = false) reqs ->
  NoDup (fst (assignIds reqs res u)) /\
  length (fst (assignIds reqs res u)) = length reqs /\
  issued (snd (assignIds reqs res u)) = (issued u + length reqs)%nat.
Proof.
  intros Hinj Hall. rewrite (assignIds_anonymous reqs res u Hall). cbn [fst snd issued].
  split; [|split; [rewrite length_fmap, length_seq; reflexivity | reflexivity]].
  assert (Hi : Inj (=) (=) (fun n => Some (uuidAt u n))).
  { intros n m [= H]. apply Hinj, H. }
  apply NoDup_fmap_2; [exact Hi | apply NoDup_seq].
Qed.

Lemma sampleUuids_neverRepeats : neverRepeats sampleUuids.
Proof.
  intros n m H. cbn in H.
  apply (inj (String.append "3f2b8c1e-5d4a-4e6f-9a7b-0c1d2e3f4a5b-")) in H.
  apply (inj pretty) in H. exact H.
Defined.

Lemma anonymous_requests_get_distinct_ids_witness :
  NoDup (fst (assignIds [requestWithoutId; requestWithEmptyId; requestWithoutId]
                        blankResponse sampleUuids)).
Proof.
  destruct (anonymous_requests_get_distinct_ids
              [requestWithoutId; requestWithEmptyId; requestWithoutId]
              blankResponse sampleUuids sampleUuids_neverRepeats) as [H _].
  - repeat constructor.
  - exact H.
Defined.

End CorrelationFacts.

(* ===================================================================== *)
(** * Properties of the error classes and the global error middleware *)
(* ===================================================================== *)

Section ErrorClassesFacts.

Import ErrorClasses.

Lemma orElse_truthy (a b : Js) : truthy b = true -> truthy (orElse a b) = true.
Proof. intros Hb. unfold orElse. destruct (truthy a) eqn:Ha; assumption. Qed.

Lemma orElse_of_truthy (a b : Js) : truthy a = true -> orElse a b = a.
Proof. intros Ha. unfold orElse. rewrite Ha. reflexivity. Qed.

Lemma orElse_of_falsy (a b : Js) : truthy a = false -> orElse a b = b.
Proof. intros Ha. unfold orElse. rewrite Ha. reflexivity. Qed.

Lemma AppError_fields (msg : option string) (status code : Js) :
  truthy (statusCode (AppError msg status code)) = true /\
  truthy (errorCode (AppError msg status code)) = true.
Proof. split; apply orElse_truthy; reflexivity. Qed.

(** X19. For an error built by one of the three classes the middleware never
    falls back: the constructors have already replaced a missing or falsy
    status and code, so the reply carries the error's own status and
    errorCode, neither of which is ever 0, empty or undefined. *)
Theorem class_errors_reply_own_fields (e : Err) (path : string) (log : list LogEntry) :
  classBuilt e ->
  truthy (statusCode e) = true /\
  truthy (errorCode e) = true /\
  status (fst (errorHandler e path log)) = statusCode e /\
  fieldOf "errorCode" (payload (fst (errorHandler e path log))) = errorCode e.
Proof.
  intros Hbuilt.
  assert (H : truthy (statusCode e) = true /\ truthy (errorCode e) = true).
  { destruct Hbuilt; cbn [statusCode errorCode ValidationError NotFoundError];
      apply AppError_fields. }
  destruct H as [Hs Hc]. split; [exact Hs|]. split; [exact Hc|].
  unfold errorHandler; cbn [fst status payload].
  split; [apply orElse_of_truthy, Hs|].
  destruct (truthy (details e)); cbn; apply orElse_of_truthy, Hc.
Qed.

Lemma class_errors_reply_own_fields_witness :
  status (fst (errorHandler (AppError (Some "boom") (JNum 0) (JStr EmptyString))
                            "/quotes" [])) = JNum 500 /\
  status (fst (errorHandler (NotFoundError (Some "no such quote") JUndefined)
                            "/quotes/9" [])) = JNum 404.
Proof.
  split.
  - apply (class_errors_reply_own_fields
             (AppError (Some "boom") (JNum 0) (JStr EmptyString)) "/quotes" []).
    constructor.
  - apply (class_errors_reply_own_fields
             (NotFoundError (Some "no such quote") JUndefined) "/quotes/9" []).
    constructor.
Defined.

(** X20. A NotFoundError is answered 404 without details.  Its errorCode is
    NOT_FOUND when none is passed, the code passed when that is truthy,
    and INTERNAL_ERROR when a code is passed that is falsy (empty, null,
    0 or false). *)
Theorem notFound_reply (msg : option string) (code : Js) (path : string)
    (log : list LogEntry) :
  status (fst (errorHandler (NotFoundError msg code) path log)) = JNum 404 /\
  length (payload (fst (errorHandler (NotFoundError msg code) path log))) = 2%nat /\
  (code = JUndefined ->
   fieldOf "errorCode" (payload (fst (errorHandler (NotFoundError msg code) path log)))
     = JStr "NOT_FOUND") /\
  (truthy code = true ->
   fieldOf "errorCode" (payload (fst (errorHandler (NotFoundError msg code) path log)))
     = code) /\
  (code <> JUndefined -> truthy code = false ->
   fieldOf "errorCode" (payload (fst (errorHandler (NotFoundError msg code) path log)))
     = JStr "INTERNAL_ERROR").
Proof.
  unfold errorHandler, NotFoundError, AppError; cbn.
  split; [reflexivity|]. split; [reflexivity|]. split; [|split].
  - intros ->. reflexivity.
  - intros Ht. destruct code; try discriminate Ht; cbn in *;
      unfold orElse; cbn; rewrite ?Ht; cbn; rewrite ?Ht; reflexivity.
  - intros Hdef Hf. destruct code; try congruence; cbn in *;
      unfold orElse; cbn; rewrite ?Hf; cbn; try reflexivity; discriminate Hf.
Qed.

(** X21. A ValidationError is answered 400 with code VALIDATION_ERROR.  The
    reply has a details field exactly when the details are truthy: the
    default, an empty array, is sent, while details passed as null, 0,
    false or the empty string are left out. *)
Theorem validation_reply (msg : option string) (dets : Js) (path : string)
    (log : list LogEntry) :
  status (fst (errorHandler (ValidationError msg dets) path log)) = JNum 400 /\
  fieldOf "errorCode" (payload (fst (errorHandler (ValidationError msg dets) path log)))
    = JStr "VALIDATION_ERROR" /\
  (dets = JUndefined ->
   fieldOf "details" (payload (fst (errorHandler (ValidationError msg dets) path log)))
     = JArr []) /\
  (truthy dets = true ->
   fieldOf "details" (payload (fst (errorHandler (ValidationError msg dets) path log)))
     = dets) /\
  (dets <> JUndefined -> truthy dets = false ->
   length (payload (fst (errorHandler (ValidationError msg dets) path log))) = 2%nat).
Proof.
  unfold errorHandler, ValidationError, AppError; cbn.
  split; [reflexivity|]. split; [|split; [|split]].
  - destruct (truthy (defaultArg dets (JArr []))); reflexivity.
  - intros ->. reflexivity.
  - intros Ht. destruct dets; try discriminate Ht; cbn in *; rewrite ?Ht; reflexivity.
  - intros Hdef Hf. destruct dets; try congruence; cbn in *; rewrite ?Hf;
      try reflexivity; discriminate Hf.
Qed.

(** X22. The reply shows the error's own message whenever it has one; an
    empty or missing message is replaced by Unexpected error.  An error
    that carries no status and no code (one thrown by other code) is
    answered 500 with INTERNAL_ERROR; and every call appends exactly one
    entry, with the request path, to the log. *)
Theorem message_shown_or_replaced (e : Err) (path : string) (log : list LogEntry) :
  (truthy (message e) = true ->
   fieldOf "message" (payload (fst (errorHandler e path log))) = message e) /\
  (truthy (message e) = false ->
   fieldOf "message" (payload (fst (errorHandler e path log))) = JStr "Unexpected error") /\
  (statusCode e = JUndefined -> errorCode e = JUndefined ->
   status (fst (errorHandler e path log)) = JNum 500 /\
   fieldOf "errorCode" (payload (fst (errorHandler e path log))) = JStr "INTERNAL_ERROR") /\
  (exists entry, snd (errorHandler e path log) = log ++ [entry] /\
                 fieldOf "path" (meta entry) = JStr path).
Proof.
  unfold errorHandler; cbn [fst snd status payload].
  split; [|split; [|split]].
  - intros Ht. destruct (truthy (details e)); cbn; apply orElse_of_truthy, Ht.
  - intros Hf. destruct (truthy (details e)); cbn; apply orElse_of_falsy, Hf.
  - intros -> ->. split; [reflexivity|]. destruct (truthy (details e)); reflexivity.
  - eexists. split; reflexivity.
Qed.

End ErrorClassesFacts.

(* ===================================================================== *)
(** * Properties of the request metrics *)
(* ===================================================================== *)

Section MetricsFacts.

Import Metrics.

Lemma onFinish_counter (r : Registry) (f : Finished) (m l : string) (s : Z) :
  counterAt (onFinish r f) m l s =
  (counterAt r m l s
   + if decide (method f = m /\ routeLabel f = l /\ statusCode f = s) then 1 else 0)%nat.
Proof.
  unfold counterAt, onFinish, observeRequest, inc; cbn [httpRequestsTotal].
  rewrite lookup_insert.
  destruct (decide ((method f, routeLabel f, pretty (statusCode f)) = (m, l, pretty s)))
    as [Heq | Hne].
  - injection Heq as Hm Hl Hs. apply (inj pretty) in Hs.
    rewrite decide_True by auto. subst. cbn. lia.
  - rewrite decide_False; [lia|]. intros (Hm & Hl & Hs). apply Hne. congruence.
Qed.

Lemma onFinish_observed (r : Registry) (f : Finished) (m l : string) :
  observedAt (onFinish r f) m l =
  observedAt r m l
    ++ (if decide (method f = m /\ routeLabel f = l) then [durationSeconds f] else []).
Proof.
  unfold observedAt, onFinish, observeRequest, observe; cbn [httpRequestDurationSeconds].
  rewrite lookup_insert.
  destruct (decide ((method f, routeLabel f) = (m, l))) as [Heq | Hne].
  - injection Heq as Hm Hl. rewrite decide_True by auto. subst. reflexivity.
  - rewrite decide_False; [rewrite app_nil_r; reflexivity|].
    intros (Hm & Hl). apply Hne. congruence.
Qed.

(** The listener on its own: over the requests it is called for, each
    counter of http_requests_total counts those with its method, route
    label and status code, and nothing else. *)
Lemma finishAll_counter
    (fs : list Finished) (r : Registry) (m l : string) (s : Z) :
  counterAt (finishAll fs r) m l s =
  (counterAt r m l s
   + length (filter (fun f => method f = m /\ routeLabel f = l /\ statusCode f = s) fs))%nat.
Proof.
  unfold finishAll. revert r.
  induction fs as [|f fs IH]; intros r; cbn [fold_left].
  - cbn. lia.
  - rewrite IH, onFinish_counter, filter_cons.
    destruct (decide (method f = m /\ routeLabel f = l /\ statusCode f = s)); cbn; lia.
Qed.

(** The listener on its own: the histogram keeps, under each method and
    route label, the durations of the requests it is called for with
    that method and label, in the order they finished. *)
Lemma finishAll_observed
    (fs : list Finished) (r : Registry) (m l : string) :
  observedAt (finishAll fs r) m l =
  observedAt r m l
    ++ (durationSeconds <$> filter (fun f => method f = m /\ routeLabel f = l) fs).
Proof.
  unfold finishAll. revert r.
  induction fs as [|f fs IH]; intros r; cbn [fold_left].
  - cbn. rewrite app_nil_r. reflexivity.
  - rewrite IH, onFinish_observed, filter_cons.
    destruct (decide (method f = m /\ routeLabel f = l)); cbn.
    + rewrite <- app_assoc. reflexivity.
    + rewrite app_nil_r. reflexivity.
Qed.

(** A request that matched no route is labelled by its raw path, so two
    unmatched paths never share a counter; a matched request is labelled
    by the route pattern. *)
Example sampleTraffic_counters :
  counterAt (finishAll sampleTraffic emptyRegistry) "GET" "/health" 200 = 2%nat /\
  counterAt (finishAll sampleTraffic emptyRegistry) "GET" "/nowhere" 404 = 1%nat /\
  counterAt (finishAll sampleTraffic emptyRegistry) "POST" "/health" 500 = 1%nat /\
  counterAt (finishAll sampleTraffic emptyRegistry) "GET" "/health" 500 = 0%nat /\
  observedAt (finishAll sampleTraffic emptyRegistry) "GET" "/health"
    = [durationSeconds (mkFinished "GET" (Some "/health") "/health" 200 1000 2500);
       durationSeconds (mkFinished "GET" (Some "/health") "/health" 200 5000 5900)] /\
  (durationSeconds (mkFinished "GET" (Some "/health") "/health" 200 1000 2500)
     == 1770887431076117 # 1180591620717411303424)%Q.
Proof. repeat split; vm_compute; reflexivity. Qed.

End MetricsFacts.

(* ===================================================================== *)
(** * Properties of the pricing function in double precision *)
(* ===================================================================== *)

Section Binary64Facts.

Import Pricing.

(** The risk factor the source assembles is the multiplier of the
    specification: adding 0.0 for an increment that does not apply
    changes nothing. *)
Lemma riskFactor_is_double_multiplier (c : RiskProfile) (cov : Binary64.double) (t : Z) :
  Binary64.calculatePremium c cov t
    = Binary64.roundToTwoDecimals (Binary64.spec_product c cov).
Proof.
  unfold Binary64.calculatePremium, Binary64.spec_product. f_equal. f_equal. f_equal.
  unfold Binary64.spec_multiplier, Binary64.spec_ageIncrement,
    Binary64.spec_smokerIncrement, Binary64.spec_occupationIncrement.
  destruct c as [a s o]; cbn [age smoker occupationRisk].
  rewrite !Z.gtb_ltb.
  destruct (Z.ltb_spec 50 a); [|destruct (Z.ltb_spec 40 a); [|destruct (Z.ltb_spec 30 a)]];
    repeat match goal with
    | |- context [(?x <=? ?y)%Z] => destruct (Z.leb_spec x y)
    end; try lia; cbn [andb];
    destruct s, o; cbn [isMEDIUM isHIGH]; vm_compute; reflexivity.
Qed.

(** Each double multiplier is within 2^-50 of the decimal one. *)
Lemma double_multiplier_close (c : RiskProfile) :
  (Pricing.spec_multiplier c - (1 # 1125899906842624)
     <= Binary64.valueOf (Binary64.spec_multiplier c))%Q /\
  (Binary64.valueOf (Binary64.spec_multiplier c)
     <= Pricing.spec_multiplier c + (1 # 1125899906842624))%Q.
Proof.
  unfold Binary64.spec_multiplier, Binary64.spec_ageIncrement,
    Binary64.spec_smokerIncrement, Binary64.spec_occupationIncrement,
    Pricing.spec_multiplier, Pricing.spec_ageIncrement,
    Pricing.spec_smokerIncrement, Pricing.spec_occupationIncrement.
  destruct c as [a s o]; cbn [age smoker occupationRisk].
  destruct (50 <? a)%Z, ((40 <? a) && (a <=? 50))%Z, ((30 <? a) && (a <=? 40))%Z, s, o;
    split; apply Qle_bool_imp_le; vm_compute; reflexivity.
Qed.

(** C4 (as the specification states it, refuted).  For a 25-year-old
    non-smoker in a LOW occupation and a coverage of 840 the formula
    gives 840 x 0.0005 x 1.0 / 12 = 0.035 exactly, which rounds half up
    to 0.04.  The code multiplies 840 by the double nearest to 0.0005,
    and the quotient by 12 is the double 0.034999999999999996..., just
    below the tie: the premium returned is 0.03, which is not the
    formula's value rounded half up to two decimals. *)
Lemma calculatePremium_tie_counterexample :
  Binary64.isFinite (Binary64.ofZ 840) = true /\
  Binary64.ltb Binary64.zero (Binary64.ofZ 840) = true /\
  (Binary64.valueOf (Binary64.ofZ 840) == 840)%Q /\
  (0 < 20)%Z /\
  Binary64.calculatePremium (mkRisk 25 false LOW) (Binary64.ofZ 840) 20 = (3 # 100)%Q /\
  Pricing.roundToTwoDecimals (spec_exactPremium (mkRisk 25 false LOW) 840) = (4 # 100)%Q /\
  ~ roundedHalfUp2 (spec_exactPremium (mkRisk 25 false LOW) 840)
      (Binary64.calculatePremium (mkRisk 25 false LOW) (Binary64.ofZ 840) 20).
Proof.
  split; [reflexivity|]. split; [reflexivity|].
  split; [reflexivity|]. split; [reflexivity|].
  assert (E : Binary64.calculatePremium (mkRisk 25 false LOW) (Binary64.ofZ 840) 20
              = (3 # 100)%Q) by (vm_compute; reflexivity).
  split; [exact E|]. split; [vm_compute; reflexivity|].
  rewrite E. intros (cents & _ & _ & Hlt).
  revert Hlt. apply Qle_not_lt. apply Qle_bool_imp_le. vm_compute. reflexivity.
Qed.

(** C4 (amended).  For a finite coverageAmount > 0 and termYears > 0 the
    premium is the double-precision value of coverageAmount x baseRate x
    multiplier / 12, every operation rounded to the nearest double and
    the product taken from left to right, rounded half up to two
    decimals.  baseRate is the double nearest to 0.0005; the multiplier
    is the double sum of 1.0, exactly one age-bracket increment (0.1
    above 30, 0.2 above 40, 0.3 above 50, else 0), 0.5 for a smoker and
    the occupation increment (0.1 MEDIUM, 0.25 HIGH, 0 LOW), and lies
    within 2^-50 of the decimal multiplier.  termYears is not read. *)
Theorem calculatePremium_double_formula
    (c : RiskProfile) (coverageAmount : Binary64.double) (termYears : Z) :
  Binary64.isFinite coverageAmount = true ->
  Binary64.ltb Binary64.zero coverageAmount = true ->
  (0 < termYears)%Z ->
  roundedHalfUp2 (Binary64.valueOf (Binary64.spec_product c coverageAmount))
                 (Binary64.calculatePremium c coverageAmount termYears) /\
  Binary64.calculatePremium c coverageAmount termYears
    = Pricing.roundToTwoDecimals
        (Binary64.valueOf
           (Binary64.div
              (Binary64.mul (Binary64.mul coverageAmount (Binary64.literal 5 10000))
                            (Binary64.spec_multiplier c))
              (Binary64.ofZ 12))) /\
  (Pricing.spec_multiplier c - (1 # 1125899906842624)
     <= Binary64.valueOf (Binary64.spec_multiplier c))%Q /\
  (Binary64.valueOf (Binary64.spec_multiplier c)
     <= Pricing.spec_multiplier c + (1 # 1125899906842624))%Q /\
  (forall t', Binary64.calculatePremium c coverageAmount t'
              = Binary64.calculatePremium c coverageAmount termYears).
Proof.
  intros _ _ _. split; [|split; [|split; [|split]]].
  - rewrite riskFactor_is_double_multiplier. apply roundToTwoDecimals_halfUp.
  - rewrite riskFactor_is_double_multiplier. reflexivity.
  - apply double_multiplier_close.
  - apply double_multiplier_close.
  - intros t'. rewrite !riskFactor_is_double_multiplier. reflexivity.
Qed.

Lemma calculatePremium_double_formula_witness :
  Binary64.calculatePremium (mkRisk 35 false LOW) (Binary64.ofZ 10000000) 20 = (45833 # 100)%Q /\
  roundedHalfUp2
    (Binary64.valueOf (Binary64.spec_product (mkRisk 35 false LOW) (Binary64.ofZ 10000000)))
    (45833 # 100).
Proof.
  destruct (calculatePremium_double_formula (mkRisk 35 false LOW) (Binary64.ofZ 10000000) 20
              eq_refl eq_refl eq_refl) as (H & _).
  assert (E : Binary64.calculatePremium (mkRisk 35 false LOW) (Binary64.ofZ 10000000) 20
              = (45833 # 100)%Q) by (vm_compute; reflexivity).
  split; [exact E|]. rewrite <- E. exact H.
Defined.

(** The same at the other end of the scale: for a smoker of 55 in a HIGH
    risk occupation and a coverage of 2400 the exact value is 0.205,
    which rounds half up to 0.21; the doubles give 0.20499999999999996
    and the premium is 0.20. *)
Example calculatePremium_upper_tie :
  Binary64.calculatePremium (mkRisk 55 true HIGH) (Binary64.ofZ 2400) 20 = (20 # 100)%Q /\
  Pricing.calculatePremium (mkRisk 55 true HIGH) 2400 20 = (21 # 100)%Q.
Proof. split; vm_compute; reflexivity. Qed.

(** Away from the ties the two agree: the scenario of the specification. *)
Example calculatePremium_double_scenario :
  Binary64.calculatePremium (mkRisk 35 false LOW) (Binary64.ofZ 10000000) 20
    = Pricing.calculatePremium (mkRisk 35 false LOW) 10000000 20.
Proof. vm_compute. reflexivity. Qed.

End Binary64Facts.


(* ===================================================================== *)
(** * Properties of the application as createApp assembles it *)
(* ===================================================================== *)

Section AppFacts.

Import App.

Lemma routeLabel_finishedWith (i : Incoming) (code : Z) :
  Metrics.routeLabel (finishedWith i code) = label i.
Proof.
  unfold Metrics.routeLabel, finishedWith, label; cbn [Metrics.route Metrics.path].
  destruct (routeOf (downstream i)) as [p|]; [|reflexivity].
  destruct p as [|a p]; reflexivity.
Qed.

Lemma durationSeconds_finishedWith (i : Incoming) (code : Z) :
  Metrics.durationSeconds (finishedWith i code) = duration i.
Proof. reflexivity. Qed.

(** The registry moves for the requests the timing middleware saw, and
    for no other. *)
Lemma handle_registry (i : Incoming) (s : Server) :
  registry (snd (handle i s)) =
    if timed i then Metrics.onFinish (registry s) (finishedWith i (answered i))
    else registry s.
Proof.
  unfold handle, timed, answered.
  destruct (upstream i) as [|err|code]; cbn; [|reflexivity|reflexivity].
  destruct (Api.requestIdMiddleware (request i) (response i) (uuids s))
    as [[[req1 res1] u1] ctl].
  destruct (downstream i) as [route code payload|route err]; reflexivity.
Qed.

Lemma handle_counter (i : Incoming) (s : Server) (m l : string) (c : Z) :
  Metrics.counterAt (registry (snd (handle i s))) m l c =
  (Metrics.counterAt (registry s) m l c
   + if decide (timed i = true /\ method i = m /\ label i = l /\ answered i = c)
     then 1 else 0)%nat.
Proof.
  rewrite handle_registry. destruct (timed i).
  - rewrite onFinish_counter, routeLabel_finishedWith.
    cbn [Metrics.method Metrics.statusCode finishedWith].
    destruct (decide (method i = m /\ label i = l /\ answered i = c)) as [H|H].
    + rewrite decide_True by (split; [reflexivity|exact H]). reflexivity.
    + rewrite decide_False by (intros (_ & H'); exact (H H')). reflexivity.
  - rewrite decide_False by (intros (H' & _); discriminate H'). lia.
Qed.

Lemma handle_observed (i : Incoming) (s : Server) (m l : string) :
  Metrics.observedAt (registry (snd (handle i s))) m l =
  Metrics.observedAt (registry s) m l
    ++ (if decide (timed i = true /\ method i = m /\ label i = l)
        then [duration i] else []).
Proof.
  rewrite handle_registry. destruct (timed i).
  - rewrite onFinish_observed, routeLabel_finishedWith, durationSeconds_finishedWith.
    cbn [Metrics.method finishedWith].
    destruct (decide (method i = m /\ label i = l)) as [H|H].
    + rewrite decide_True by (split; [reflexivity|exact H]). reflexivity.
    + rewrite decide_False by (intros (_ & H'); exact (H H')). reflexivity.
  - rewrite decide_False by (intros (H' & _); discriminate H').
    rewrite app_nil_r. reflexivity.
Qed.

Lemma handleAll_cons (i : Incoming) (rs : list Incoming) (s : Server) :
  handleAll (i :: rs) s = handleAll rs (snd (handle i s)).
Proof. reflexivity. Qed.

(** C9 (as the specification states it, refuted).  A POST that carries
    x-request-id: client-7 and a body that is not JSON is stopped by
    [express.json()], which is mounted before the requestId middleware:
    the error handler answers 500, the response carries no X-Request-Id
    header, [req.requestId] was never set (the error log records it as
    undefined) and the client's id is not echoed. *)
Lemma rejected_body_counterexample :
  Api.headers (request rejectedWithId) !! "x-request-id" = Some "client-7" /\
  Api.responseHeaders (response rejectedWithId) !! "X-Request-Id" = None /\
  let '(req', res', s') := handle rejectedWithId sampleServer in
  Api.statusCode res' = 500%Z /\
  Api.responseHeaders res' !! "X-Request-Id" = None /\
  Api.requestId req' = None /\
  log s' = [mkLog error "Unhandled error"
              [("error", Api.message malformedBody);
               ("stack", Api.stack malformedBody);
               ("requestId", JUndefined)]] /\
  ~ (exists id, Api.requestId req' = Some id /\
                Api.responseHeaders res' !! "X-Request-Id" = Some id).
Proof.
  split; [reflexivity|]. split; [reflexivity|].
  cbn. split; [reflexivity|]. split; [reflexivity|]. split; [reflexivity|].
  split; [reflexivity|]. intros (id & H & _). discriminate H.
Qed.

(** C9 (amended).  A request that helmet, cors and express.json() passed
    on reaches the requestId middleware, and then [req.requestId] and
    the X-Request-Id header of the response hold the same id, whatever
    the routes do afterwards: the incoming x-request-id when it is
    present and non-empty (no UUID is drawn), otherwise a freshly drawn
    UUID.  A request whose body express.json() rejects never reaches the
    middleware: it is answered 500 by the error handler, no UUID is
    drawn, [req.requestId] stays unset and is logged as undefined, and
    the X-Request-Id header is as the earlier middleware left it, so a
    client-supplied id is not echoed.  The same holds for a request an
    earlier middleware answered itself. *)
Theorem requestId_set_for_parsed_requests (i : Incoming) (s : Server) :
  let '(req', res', s') := handle i s in
  match upstream i with
  | PassedOn =>
      Api.requestId req' = Some (Api.spec_requestId (request i) (uuids s)) /\
      Api.responseHeaders res' !! "X-Request-Id"
        = Some (Api.spec_requestId (request i) (uuids s)) /\
      Api.headers req' = Api.headers (request i) /\
      (forall id, Api.headers (request i) !! "x-request-id" = Some id ->
                  id <> EmptyString ->
                  Api.spec_requestId (request i) (uuids s) = id /\ uuids s' = uuids s) /\
      (Api.headers (request i) !! "x-request-id" = None \/
       Api.headers (request i) !! "x-request-id" = Some EmptyString ->
       Api.spec_requestId (request i) (uuids s)
         = Api.uuidAt (uuids s) (Api.issued (uuids s)) /\
       Api.issued (uuids s') = S (Api.issued (uuids s)) /\
       Api.uuidAt (uuids s') = Api.uuidAt (uuids s))
  | BodyRejected err =>
      req' = request i /\
      Api.statusCode res' = 500%Z /\
      Api.responseHeaders res' !! "X-Request-Id"
        = Api.responseHeaders (response i) !! "X-Request-Id" /\
      uuids s' = uuids s /\
      registry s' = registry s /\
      log s' = log s ++ [mkLog error "Unhandled error"
                           [("error", Api.message err);
                            ("stack", Api.stack err);
                            ("requestId", Api.headerJs (Api.requestId (request i)))]]
  | AnsweredEarly code =>
      req' = request i /\
      Api.statusCode res' = code /\
      Api.responseHeaders res' !! "X-Request-Id"
        = Api.responseHeaders (response i) !! "X-Request-Id" /\
      s' = s
  end.
Proof.
  unfold handle.
  destruct (upstream i) as [|err|code].
  - destruct (requestIdMiddleware_sets_same_id (request i) (response i) (uuids s))
      as (id & u' & Hrun & Hhdr & Hid & Hkeep & Hfresh).
    subst id. rewrite Hrun.
    assert (Hfresh' :
      Api.headers (request i) !! "x-request-id" = None \/
      Api.headers (request i) !! "x-request-id" = Some EmptyString ->
      Api.spec_requestId (request i) (uuids s)
        = Api.uuidAt (uuids s) (Api.issued (uuids s)) /\
      Api.issued u' = S (Api.issued (uuids s)) /\
      Api.uuidAt u' = Api.uuidAt (uuids s)).
    { intros Hn. destruct (Hfresh Hn) as (H1 & H2). split; [exact H1|]. split; [exact H2|].
      revert Hrun. unfold Api.requestIdMiddleware.
      destruct Hn as [Hn|Hn]; rewrite Hn; cbn; intros Heq;
        pose proof (f_equal (fun t => snd (fst t)) Heq) as Hu; cbn in Hu;
        rewrite <- Hu; reflexivity. }
    destruct (downstream i) as [route code payload|route err]; cbn.
    + split; [reflexivity|]. split; [exact Hhdr|]. split; [reflexivity|].
      split; [exact Hkeep|exact Hfresh'].
    + split; [reflexivity|]. split; [exact Hhdr|]. split; [reflexivity|].
      split; [exact Hkeep|exact Hfresh'].
  - cbn. repeat split; reflexivity.
  - cbn. repeat split; reflexivity.
Qed.

(** X23. Over any run of requests, each http_requests_total counter
    grows by the number of requests that got past helmet, cors and
    express.json() with exactly its method, route label (the route
    pattern when one matched and is non-empty, else the raw path) and
    final status code (the handler's, or 500 when the handler threw).  A
    request rejected or answered before the timing middleware is never
    counted: a run of such requests leaves the registry as it was. *)
Theorem counter_counts_timed_requests
    (rs : list Incoming) (s : Server) (m l : string) (c : Z) :
  Metrics.counterAt (registry (handleAll rs s)) m l c =
    (Metrics.counterAt (registry s) m l c
     + length (filter (fun i => timed i = true /\ method i = m /\ label i = l
                                /\ answered i = c) rs))%nat /\
  (Forall (fun i => timed i = false) rs -> registry (handleAll rs s) = registry s).
Proof.
  split.
  - revert s. induction rs as [|i rs IH]; intros s.
    + cbn. lia.
    + rewrite handleAll_cons, IH, handle_counter, filter_cons.
      destruct (decide (timed i = true /\ method i = m /\ label i = l /\ answered i = c));
        cbn; lia.
  - intros Hall. revert s. induction Hall as [|i rs Hi _ IH]; intros s; [reflexivity|].
    rewrite handleAll_cons, IH, handle_registry, Hi. reflexivity.
Qed.

(** X24. Over any run of requests, the http_request_duration_seconds
    histogram of a method and route label receives the durations
    (Number(end - start) / 1e9, in doubles) of exactly the requests that
    got past helmet, cors and express.json() with that method and label,
    in the order they finished; a request rejected or answered before
    the timing middleware adds nothing. *)
Theorem histogram_records_timed_durations
    (rs : list Incoming) (s : Server) (m l : string) :
  Metrics.observedAt (registry (handleAll rs s)) m l =
    Metrics.observedAt (registry s) m l
      ++ (duration <$> filter (fun i => timed i = true /\ method i = m /\ label i = l) rs) /\
  (forall i, timed i = false ->
     Metrics.observedAt (registry (handleAll (rs ++ [i]) s)) m l
       = Metrics.observedAt (registry (handleAll rs s)) m l).
Proof.
  assert (Hmain : forall rs s,
    Metrics.observedAt (registry (handleAll rs s)) m l =
    Metrics.observedAt (registry s) m l
      ++ (duration <$> filter (fun i => timed i = true /\ method i = m /\ label i = l) rs)).
  { clear rs s. induction rs as [|i rs IH]; intros s.
    - cbn. rewrite app_nil_r. reflexivity.
    - rewrite handleAll_cons, IH, handle_observed, filter_cons.
      destruct (decide (timed i = true /\ method i = m /\ label i = l)); cbn.
      + rewrite <- app_assoc. reflexivity.
      + rewrite app_nil_r. reflexivity. }
  split; [apply Hmain|].
  intros i Hi. rewrite !Hmain, filter_app, filter_cons, filter_nil.
  rewrite decide_False by (intros (H' & _); congruence).
  rewrite app_nil_r. reflexivity.
Qed.

(** The sample run: two health checks and an unmatched path are counted,
    the failing handler under status 500; the rejected body and the
    preflight are not counted under any label. *)
Example sampleRun_counters :
  Metrics.counterAt (registry (handleAll sampleRun sampleServer)) "GET" "/health" 200 = 2%nat /\
  Metrics.counterAt (registry (handleAll sampleRun sampleServer)) "GET" "/nowhere" 404 = 1%nat /\
  Metrics.counterAt (registry (handleAll sampleRun sampleServer)) "GET" "/metrics" 500 = 1%nat /\
  Metrics.counterAt (registry (handleAll sampleRun sampleServer)) "POST" "/quotes" 500 = 0%nat /\
  Metrics.counterAt (registry (handleAll sampleRun sampleServer)) "OPTIONS" "/health" 204 = 0%nat /\
  size (Metrics.httpRequestsTotal (registry (handleAll sampleRun sampleServer))) = 3%nat /\
  Metrics.observedAt (registry (handleAll sampleRun sampleServer)) "GET" "/health"
    = [duration healthCheck; duration healthCheck] /\
  Metrics.observedAt (registry (handleAll sampleRun sampleServer)) "POST" "/quotes" = [].
Proof. repeat split; vm_compute; reflexivity. Qed.

End AppFacts.
